(** * Guard-node ranking pipeline: feature engineering, top-K extraction
    and ranking evaluation.

    Shallow embedding of the Python sources
      - scripts/prepare_features.py   (training-time [engineer_features])
      - scripts/predict_guard.py      ([predict_top_k_guards])
      - scripts/train_xgboost.py      ([calculate_mrr], [evaluate_topk])
      - backend/main.py               (serving-time [engineer_features],
                                       [get_top_k_predictions],
                                       [get_feature_importance])

    Floating-point numbers are modelled as exact rationals [Q]; class indices
    as [nat]; the user-supplied [k] of a Python slice as [Z].  Python
    exceptions are values of [py_result]. *)

From Stdlib Require Import String.
From Stdlib Require Import List ListDec Bool Arith Lia ZArith QArith Qminmax Lqa.
From Stdlib Require Import Sorting.Sorted Sorting.Permutation.
Import ListNotations.

Open Scope Q_scope.

(* ------------------------------------------------------------------ *)
(** ** Python runtime: exceptions and slicing *)

Inductive py_exc : Type :=
| ZeroDivisionError
| ValueError
| KeyError
| IndexError.

Inductive py_result (A : Type) : Type :=
| Ok : A -> py_result A
| Raise : py_exc -> py_result A.
Arguments Ok {A} _.
Arguments Raise {A} _.

Definition py_bind {A B} (r : py_result A) (f : A -> py_result B) : py_result B :=
  match r with
  | Ok a => f a
  | Raise e => Raise e
  end.

Notation "x <- r ;; k" := (py_bind r (fun x => k))
  (at level 61, r at next level, right associativity).

(** [l[:k]] for an integer [k]: a non-negative [k] keeps the first [k]
    elements, a negative [k] drops the last [-k] elements. *)
Definition py_take {A} (l : list A) (k : Z) : list A :=
  if (0 <=? k)%Z then firstn (Z.to_nat k) l
  else firstn (length l - Z.to_nat (- k)) l.

(** First position of [x] in [l] ([np.where(l == x)[0][0]]). *)
Fixpoint index_of (x : nat) (l : list nat) : option nat :=
  match l with
  | [] => None
  | y :: l' => if Nat.eqb y x then Some 0%nat
               else option_map S (index_of x l')
  end.

(* ------------------------------------------------------------------ *)
(** ** [np.argsort] and the top-K extractor

    Both [get_top_k_predictions] (backend/main.py) and
    [predict_top_k_guards] (scripts/predict_guard.py), as well as
    [calculate_mrr], extract a ranking with
    [np.argsort(row)[::-1][:k]].  [np.argsort] sorts ascending; the order
    it gives equal values depends on the sort numpy runs.  [argsort] below
    is the stable order (equal values by index): what
    [np.argsort(row, kind="mergesort")] returns at every length, and what
    the default kind returns on numpy's generic path for rows of at most
    17 entries, which it sorts by insertion.  [argsort_result] states what
    the default kind guarantees at every length. *)

Section Argsort.
Variable row : list Q.

Definition prob (i : nat) : Q := nth i row 0.

(** Insert index [i] after every index whose probability is [<=] its own. *)
Fixpoint ins_idx (i : nat) (l : list nat) : list nat :=
  match l with
  | [] => [i]
  | j :: l' => if Qle_bool (prob j) (prob i) then j :: ins_idx i l'
               else i :: l
  end.

Definition argsort : list nat :=
  fold_left (fun acc i => ins_idx i acc) (seq 0 (length row)) [].

(** [np.argsort(row)[::-1][:k]] *)
Definition top_k_indices (k : Z) : list nat := py_take (rev argsort) k.

(** Ascending order used by the stable sort: by probability, then index. *)
Definition asc (i j : nat) : Prop :=
  prob i < prob j \/ (prob i == prob j /\ (i < j)%nat).

(** Order of the extracted ranking: [a] is ranked before [b]. *)
Definition ranked_before (a b : nat) : Prop := asc b a.
End Argsort.

(** What [np.argsort(row)] with the default kind guarantees: a permutation
    of the class indices listing the row in non-decreasing order.  The
    order of equal values is left open: the generic introsort partitions
    rows of more than 17 entries (not stable), and SIMD builds sort with
    other networks. *)
Definition argsort_result (row : list Q) (perm : list nat) : Prop :=
  Permutation perm (seq 0 (length row)) /\
  Sorted (fun i j => prob row i <= prob row j) perm.

(** [np.argsort(row)[::-1][:k]], where [perm] is the index order returned
    by [np.argsort(row)]. *)
Definition top_k_of (perm : list nat) (k : Z) : list nat := py_take (rev perm) k.

(** [a < b] on floats, as a boolean. *)
Definition Qltb (a b : Q) : bool := negb (Qle_bool b a).

(* ------------------------------------------------------------------ *)
(** ** backend/main.py: [get_top_k_predictions]

    Relay metadata (nickname, address, country placeholders) is not part
    of the ranking and is left out of the record. *)

Record GuardPrediction := {
  gp_guard_fingerprint : string;
  gp_confidence : Q;
  gp_rank : nat
}.

Fixpoint build_predictions (guard_fingerprints : list string) (p0 : list Q)
    (idxs : list nat) (rank : nat) : py_result (list GuardPrediction) :=
  match idxs with
  | [] => Ok []
  | idx :: idxs' =>
      match nth_error guard_fingerprints idx with
      | None => Raise IndexError
      | Some guard_fp =>
          rest <- build_predictions guard_fingerprints p0 idxs' (S rank) ;;
          Ok ({| gp_guard_fingerprint := guard_fp;
                 gp_confidence := prob p0 idx;
                 gp_rank := rank |} :: rest)
      end
  end.

Definition get_top_k_predictions (guard_fingerprints : list string)
    (probabilities : list (list Q)) (k : Z) : py_result (list GuardPrediction) :=
  match probabilities with
  | [] => Raise IndexError
  | p0 :: _ => build_predictions guard_fingerprints p0 (top_k_indices p0 k) 1
  end.

(* ------------------------------------------------------------------ *)
(** ** scripts/train_xgboost.py: [calculate_mrr] *)

(** Contribution of one example: [1.0 / rank] when the true label is in
    the top-k indices, nothing otherwise. *)
Definition reciprocal_rank (row : list Q) (true_label : nat) (k : Z) : Q :=
  match index_of true_label (top_k_indices row k) with
  | Some pos => 1 / inject_Z (Z.of_nat (S pos))
  | None => 0
  end.

(** The [for i, true_label in enumerate(y_true)] loop; [y_pred_proba[i]]
    out of range raises [IndexError]. *)
Fixpoint mrr_loop (y_pred_proba : list (list Q)) (ys : list nat) (i : nat)
    (k : Z) (mrr : Q) : py_result Q :=
  match ys with
  | [] => Ok mrr
  | true_label :: ys' =>
      match nth_error y_pred_proba i with
      | None => Raise IndexError
      | Some row => mrr_loop y_pred_proba ys' (S i) k
                      (mrr + reciprocal_rank row true_label k)
      end
  end.

(** [mrr / len(y_true)]: with an empty [y_true] the accumulator is still
    the integer [0] and [0 / 0] raises [ZeroDivisionError]. *)
Definition calculate_mrr (y_true : list nat) (y_pred_proba : list (list Q))
    (k : Z) : py_result Q :=
  mrr <- mrr_loop y_pred_proba y_true 0 k 0 ;;
  if Nat.eqb (length y_true) 0 then Raise ZeroDivisionError
  else Ok (mrr / inject_Z (Z.of_nat (length y_true))).

(* ------------------------------------------------------------------ *)
(** ** scripts/train_xgboost.py: [evaluate_topk] *)

(** [np.argmax]: first index holding the maximum (a later value replaces
    the current best only when strictly greater).  numpy raises on an empty
    row; [predict_proba] rows have one entry per class, and the empty row
    is mapped to 0 here. *)
Fixpoint argmax_from (l : list Q) (i best : nat) (best_v : Q) : nat :=
  match l with
  | [] => best
  | x :: l' => if Qltb best_v x then argmax_from l' (S i) i x
               else argmax_from l' (S i) best best_v
  end.

Definition argmax (row : list Q) : nat :=
  match row with
  | [] => 0%nat
  | x :: l => argmax_from l 1 0 x
  end.

Definition count_true (hits : list bool) : nat := length (filter (fun b => b) hits).

(** Mean of a list of booleans (the empty list gives 0). *)
Definition fraction (hits : list bool) : Q :=
  inject_Z (Z.of_nat (count_true hits)) / inject_Z (Z.of_nat (length hits)).

(** sklearn [accuracy_score]. *)
Definition accuracy_score (y_true y_pred : list nat) : Q :=
  fraction (map (fun '(t, p) => Nat.eqb t p) (combine y_true y_pred)).

(** sklearn [top_k_accuracy_score] on the multiclass path, for the inputs
    on which it returns a score: a hit when the true label is among
    [argsort(row, kind="mergesort")[::-1][:k]]; the stable mergesort gives
    the same ranking as [top_k_indices].  Its input errors ([ValueError]
    for a label outside [labels], a binary [y_true] with two score
    columns, empty or mismatched inputs) are not modelled. *)
Definition top_k_accuracy_score (y_true : list nat) (P : list (list Q)) (k : Z) : Q :=
  fraction (map (fun '(t, row) => existsb (Nat.eqb t) (top_k_indices row k))
                (combine y_true P)).

Definition evaluate_topk_at (y_true : list nat) (P : list (list Q)) (k : Z) : Q :=
  if Z.eqb k 1 then accuracy_score y_true (map argmax P)
  else top_k_accuracy_score y_true P k.

Definition evaluate_topk (y_true : list nat) (P : list (list Q)) (k_values : list Z)
    : list (Z * Q) :=
  map (fun k => (k, evaluate_topk_at y_true P k)) k_values.

(* ------------------------------------------------------------------ *)
(** ** sklearn [LabelEncoder], as used by all three pipelines

    [fit] stores [classes_ = np.unique(values)] (sorted, duplicates
    removed); [transform] maps each value to its position in [classes_]
    and raises [ValueError] on a value absent from [classes_];
    [inverse_transform] raises [ValueError] on an index out of range. *)

Record LabelEncoder := { classes_ : list string }.

Fixpoint str_insert (s : string) (l : list string) : list string :=
  match l with
  | [] => [s]
  | x :: l' => if String.leb s x then s :: l else x :: str_insert s l'
  end.

Definition str_sort (l : list string) : list string := fold_right str_insert [] l.

Definition np_unique (values : list string) : list string :=
  str_sort (nodup string_dec values).

Definition le_fit (values : list string) : LabelEncoder :=
  {| classes_ := np_unique values |}.

Fixpoint str_index (s : string) (l : list string) : option nat :=
  match l with
  | [] => None
  | x :: l' => if String.eqb x s then Some 0%nat else option_map S (str_index s l')
  end.

Fixpoint le_transform (le : LabelEncoder) (values : list string) : py_result (list nat) :=
  match values with
  | [] => Ok []
  | v :: vs =>
      match str_index v (classes_ le) with
      | None => Raise ValueError
      | Some i => rest <- le_transform le vs ;; Ok (i :: rest)
      end
  end.

Fixpoint le_inverse_transform (le : LabelEncoder) (idxs : list nat)
    : py_result (list string) :=
  match idxs with
  | [] => Ok []
  | i :: is =>
      match nth_error (classes_ le) i with
      | None => Raise ValueError
      | Some v => rest <- le_inverse_transform le is ;; Ok (v :: rest)
      end
  end.

Definition le_fit_transform (values : list string) : py_result (list nat) :=
  le_transform (le_fit values) values.

(** Single-value views of the encoder. *)
Definition encode (le : LabelEncoder) (v : string) : option nat :=
  match le_transform le [v] with
  | Ok [i] => Some i
  | _ => None
  end.

Definition decode (le : LabelEncoder) (i : nat) : py_result string :=
  match le_inverse_transform le [i] with
  | Ok [v] => Ok v
  | Ok _ => Raise ValueError
  | Raise e => Raise e
  end.

(** The [encoders] dictionary, keyed by column name; a missing key raises
    [KeyError]. *)
Definition encoder_registry := list (string * LabelEncoder).

Fixpoint lookup_encoder (encs : encoder_registry) (col : string) : option LabelEncoder :=
  match encs with
  | [] => None
  | (c, le) :: encs' => if String.eqb c col then Some le else lookup_encoder encs' col
  end.

Definition get_encoder (encs : encoder_registry) (col : string) : py_result LabelEncoder :=
  match lookup_encoder encs col with
  | Some le => Ok le
  | None => Raise KeyError
  end.

(* ------------------------------------------------------------------ *)
(** ** Circuit observations and the row-local feature block

    The row-local features of [engineer_features]: bandwidth ratios and
    aggregates, geographic indicators and interaction terms.  The sample
    standard deviation [bw_std] (same expression on every path) and the
    corpus-wide historical aggregates are not part of this block. *)

Record circuit := {
  circuit_id : nat;
  guard_fingerprint : string;
  middle_fingerprint : string;
  exit_fingerprint : string;
  guard_country : string;
  middle_country : string;
  exit_country : string;
  guard_bandwidth : Q;
  middle_bandwidth : Q;
  exit_bandwidth : Q;
  circuit_setup_duration : Q;
  total_bytes : Q
}.

Record row_features := {
  bw_ratio_guard_middle : Q;
  bw_ratio_guard_exit : Q;
  bw_ratio_middle_exit : Q;
  bw_total : Q;
  bw_min : Q;
  bw_max : Q;
  same_country_guard_middle : Q;
  same_country_guard_exit : Q;
  same_country_middle_exit : Q;
  all_same_country : Q;
  country_diversity : Q;
  bw_guard_x_setup : Q;
  bw_total_x_bytes : Q
}.

(** [int(b)] / [.astype(int)] *)
Definition b2q (b : bool) : Q := if b then 1 else 0.

(** [nunique(axis=1)] and [len(set(...))] over the three countries. *)
Definition nunique (l : list string) : nat := length (nodup string_dec l).

(** scripts/prepare_features.py, [engineer_features], lines 22-37 and 96-97. *)
Definition train_row_features (c : circuit) : row_features :=
  let g := guard_bandwidth c in
  let m := middle_bandwidth c in
  let e := exit_bandwidth c in
  let total := g + m + e in
  {| bw_ratio_guard_middle := g / (m + 1);
     bw_ratio_guard_exit := g / (e + 1);
     bw_ratio_middle_exit := m / (e + 1);
     bw_total := total;
     bw_min := Qmin (Qmin g m) e;
     bw_max := Qmax (Qmax g m) e;
     same_country_guard_middle :=
       b2q (String.eqb (guard_country c) (middle_country c));
     same_country_guard_exit :=
       b2q (String.eqb (guard_country c) (exit_country c));
     same_country_middle_exit :=
       b2q (String.eqb (middle_country c) (exit_country c));
     all_same_country :=
       b2q (String.eqb (guard_country c) (middle_country c)
            && String.eqb (guard_country c) (exit_country c));
     country_diversity :=
       inject_Z (Z.of_nat (nunique [guard_country c; middle_country c; exit_country c]));
     bw_guard_x_setup := g * circuit_setup_duration c;
     bw_total_x_bytes := total * total_bytes c |}.

(** scripts/predict_guard.py, [predict_top_k_guards], lines 52-66 and 74-75. *)
Definition predict_guard_row_features (c : circuit) : row_features :=
  let g := guard_bandwidth c in
  let m := middle_bandwidth c in
  let e := exit_bandwidth c in
  let total := g + m + e in
  {| bw_ratio_guard_middle := g / (m + 1);
     bw_ratio_guard_exit := g / (e + 1);
     bw_ratio_middle_exit := m / (e + 1);
     bw_total := total;
     bw_min := Qmin (Qmin g m) e;
     bw_max := Qmax (Qmax g m) e;
     same_country_guard_middle :=
       b2q (String.eqb (guard_country c) (middle_country c));
     same_country_guard_exit :=
       b2q (String.eqb (guard_country c) (exit_country c));
     same_country_middle_exit :=
       b2q (String.eqb (middle_country c) (exit_country c));
     all_same_country :=
       b2q (String.eqb (guard_country c) (middle_country c)
            && String.eqb (guard_country c) (exit_country c));
     country_diversity :=
       inject_Z (Z.of_nat (nunique [guard_country c; middle_country c; exit_country c]));
     bw_guard_x_setup := g * circuit_setup_duration c;
     bw_total_x_bytes := total * total_bytes c |}.

(** [1e-6] *)
Definition eps6 : Q := 1 # 1000000.

(** backend/main.py, [engineer_features], lines 213-227 and 265-266. *)
Definition backend_row_features (c : circuit) : row_features :=
  let g := guard_bandwidth c in
  let m := middle_bandwidth c in
  let e := exit_bandwidth c in
  let total := g + m + e in
  let unique_countries :=
    nunique [guard_country c; middle_country c; exit_country c] in
  {| bw_ratio_guard_middle := g / (m + eps6);
     bw_ratio_guard_exit := g / (e + eps6);
     bw_ratio_middle_exit := m / (e + eps6);
     bw_total := total;
     bw_min := Qmin (Qmin g m) e;
     bw_max := Qmax (Qmax g m) e;
     same_country_guard_middle :=
       b2q (String.eqb (guard_country c) (middle_country c));
     same_country_guard_exit :=
       b2q (String.eqb (guard_country c) (exit_country c));
     same_country_middle_exit :=
       b2q (String.eqb (middle_country c) (exit_country c));
     all_same_country :=
       b2q (String.eqb (guard_country c) (middle_country c)
            && String.eqb (guard_country c) (exit_country c));
     country_diversity := inject_Z (Z.of_nat unique_countries) / 3;
     bw_guard_x_setup := g * circuit_setup_duration c;
     bw_total_x_bytes := total * total_bytes c |}.

(* ------------------------------------------------------------------ *)
(** ** backend/main.py: the request and the serving-time inputs *)

Record PredictionRequest := {
  req_exit_fingerprint : string;
  req_exit_country : string;
  req_bandwidth : Q;
  req_setup_time : Q;
  req_middle_fingerprint : option string;
  req_middle_country : option string
}.

(** [x if x else d] / [x or d] on an optional string ([None] and the empty string are
    falsy). *)
Definition py_or_default (o : option string) (d : string) : string :=
  match o with
  | Some s => if String.eqb s EmptyString then d else s
  | None => d
  end.

(** The observation the backend builds from a request (lines 197-208):
    the guard fields are fixed placeholders.  The guard fingerprint is not
    read by the serving transform. *)
Definition backend_circuit (req : PredictionRequest) : circuit :=
  let bw := req_bandwidth req in
  {| circuit_id := 0;
     guard_fingerprint := EmptyString;
     middle_fingerprint := py_or_default (req_middle_fingerprint req) "UNKNOWN"%string;
     exit_fingerprint := req_exit_fingerprint req;
     guard_country := "US"%string;
     middle_country := py_or_default (req_middle_country req) "Unknown"%string;
     exit_country := req_exit_country req;
     guard_bandwidth := 17 # 2;
     middle_bandwidth := 7;
     exit_bandwidth := if Qltb 0 bw then bw else 13 # 2;
     circuit_setup_duration := req_setup_time req;
     total_bytes := if Qltb 0 bw then bw * req_setup_time req * 1000000
                    else 10000000 |}.

(** [try: encoders[col].transform([v])[0] except: -1] (lines 239-262); the
    bare [except] also catches the [KeyError] of a missing encoder. *)
Definition encode_or_sentinel (encs : encoder_registry) (col v : string) : Z :=
  match get_encoder encs col with
  | Ok le =>
      match le_transform le [v] with
      | Ok (i :: _) => Z.of_nat i
      | _ => (-1)%Z
      end
  | Raise _ => (-1)%Z
  end.

Definition backend_encoded (encs : encoder_registry) (c : circuit) : list Z :=
  [encode_or_sentinel encs "middle_fingerprint"%string (middle_fingerprint c);
   encode_or_sentinel encs "exit_fingerprint"%string (exit_fingerprint c);
   encode_or_sentinel encs "guard_country"%string (guard_country c);
   encode_or_sentinel encs "middle_country"%string (middle_country c);
   encode_or_sentinel encs "exit_country"%string (exit_country c)].

Definition backend_engineer_features (encs : encoder_registry)
    (req : PredictionRequest) : row_features * list Z :=
  let c := backend_circuit req in
  (backend_row_features c, backend_encoded encs c).

(* ------------------------------------------------------------------ *)
(** ** Data frame columns *)

(** [df[name] = ...] on a frame's columns: a new column is appended, an
    existing one keeps its place. *)
Definition df_assign (cols : list string) (name : string) : list string :=
  if existsb (String.eqb name) cols then cols else cols ++ [name].

Definition df_assign_all (cols names : list string) : list string :=
  fold_left df_assign names cols.

(** [df[cols]]: [KeyError] when one of [cols] is not a column. *)
Definition df_select (columns wanted : list string) : py_result (list string) :=
  if forallb (fun w => existsb (String.eqb w) columns) wanted then Ok wanted
  else Raise KeyError.

(* ------------------------------------------------------------------ *)
(** ** scripts/predict_guard.py: [predict_top_k_guards] *)

(** The five encoded columns, in the order of the loop at line 69. *)
Definition encoded_columns : list (string * (circuit -> string)) :=
  [("middle_fingerprint"%string, middle_fingerprint);
   ("exit_fingerprint"%string, exit_fingerprint);
   ("guard_country"%string, guard_country);
   ("middle_country"%string, middle_country);
   ("exit_country"%string, exit_country)].

(** [df[f'{col}_encoded'] = encoders[col].transform(df[col])], column by
    column on a frame with the columns [columns]; the first failing column
    raises: [KeyError] for a missing encoder or column, [ValueError] for a
    value the encoder has not seen.  The loop only adds [*_encoded]
    columns, none of which it reads. *)
Fixpoint encode_columns (encs : encoder_registry) (columns : list string)
    (cols : list (string * (circuit -> string))) (df : list circuit)
    : py_result (list (list nat)) :=
  match cols with
  | [] => Ok []
  | (name, get) :: cols' =>
      le <- get_encoder encs name ;;
      _ <- df_select columns [name] ;;
      col <- le_transform le (map get df) ;;
      rest <- encode_columns encs columns cols' df ;;
      Ok (col :: rest)
  end.

Definition row_encodings (cols : list (list nat)) (i : nat) : list Z :=
  map (fun col => Z.of_nat (nth i col 0%nat)) cols.

(** The classifier is pluggable: any map from a feature row to a
    probability row. *)
Definition classifier := row_features -> list Z -> list Q.

Record guard_ranking := {
  gr_circuit_id : nat;
  top_k_guards : list string;
  top_k_probabilities : list Q
}.

(** The [for i in range(len(X))] loop (lines 87-96); [circuit_columns]
    are the columns of [circuit_data], whose [circuit_id] is read at line
    93 after the inverse transform. *)
Fixpoint rank_rows (guard_encoder : LabelEncoder) (circuit_columns : list string)
    (df : list circuit) (probabilities : list (list Q)) (k : Z)
    : py_result (list guard_ranking) :=
  match df, probabilities with
  | c :: df', p :: ps =>
      let top_k_idx := top_k_indices p k in
      top_k_guards <- le_inverse_transform guard_encoder top_k_idx ;;
      _ <- df_select circuit_columns ["circuit_id"%string] ;;
      rest <- rank_rows guard_encoder circuit_columns df' ps k ;;
      Ok ({| gr_circuit_id := circuit_id c;
             top_k_guards := top_k_guards;
             top_k_probabilities := map (prob p) top_k_idx |} :: rest)
  | _, _ => Ok []
  end.

(** [model.predict_proba(X)], one row per circuit.  [X] holds the
    [feature_cols] of each row; the classifier is any function of the
    row's features, so in particular any function of [X]. *)
Definition model_probabilities (model : classifier) (circuit_data : list circuit)
    (cols : list (list nat)) : list (list Q) :=
  let feats := map predict_guard_row_features circuit_data in
  map (fun '(i, f) => model f (row_encodings cols i))
      (combine (seq 0 (length feats)) feats).

(** The columns read by the feature engineering of lines 52-66. *)
Definition predict_guard_engineering_reads : list string :=
  ["guard_bandwidth"; "middle_bandwidth"; "exit_bandwidth";
   "guard_country"; "middle_country"; "exit_country"]%string.

(** The columns assigned at lines 52-66. *)
Definition predict_guard_engineered : list string :=
  ["bw_ratio_guard_middle"; "bw_ratio_guard_exit"; "bw_ratio_middle_exit";
   "bw_total"; "bw_min"; "bw_max"; "bw_std";
   "same_country_guard_middle"; "same_country_guard_exit";
   "same_country_middle_exit"; "all_same_country"; "country_diversity"]%string.

(** The columns assigned by the encoding loop (lines 69-71). *)
Definition predict_guard_encoded : list string :=
  ["middle_fingerprint_encoded"; "exit_fingerprint_encoded";
   "guard_country_encoded"; "middle_country_encoded"; "exit_country_encoded"]%string.

(** The columns read (lines 74-75) and assigned by the interaction terms. *)
Definition predict_guard_interaction_reads : list string :=
  ["guard_bandwidth"; "circuit_setup_duration"; "bw_total"; "total_bytes"]%string.

Definition predict_guard_interactions : list string :=
  ["bw_guard_x_setup"; "bw_total_x_bytes"]%string.



(** [predict_top_k_guards(circuit_data, model, encoders, feature_cols, k)]
    on a frame with the columns [circuit_columns] and the rows
    [circuit_data].  A missing column raises [KeyError] where it is read;
    [fillna(0)] at line 78 does not change the (always defined) values. *)
Definition predict_top_k_guards (circuit_columns : list string)
    (circuit_data : list circuit) (model : classifier)
    (encoders : encoder_registry) (feature_cols : list string) (k : Z)
    : py_result (list guard_ranking) :=
  _ <- df_select circuit_columns predict_guard_engineering_reads ;;
  let columns := df_assign_all circuit_columns predict_guard_engineered in
  cols <- encode_columns encoders columns encoded_columns circuit_data ;;
  let columns := df_assign_all columns predict_guard_encoded in
  _ <- df_select columns predict_guard_interaction_reads ;;
  let columns := df_assign_all columns predict_guard_interactions in
  _ <- df_select columns feature_cols ;;
  let probabilities := model_probabilities model circuit_data cols in
  guard_encoder <- get_encoder encoders "guard_fingerprint"%string ;;
  rank_rows guard_encoder circuit_columns circuit_data probabilities k.

(* ------------------------------------------------------------------ *)
(** ** backend/main.py: [get_feature_importance] *)

Inductive impact := high | medium | low.

Record FeatureImportance := {
  fi_feature : string;
  fi_importance : Q;
  fi_value : Q;
  fi_impact : impact
}.

Record raw_importance := {
  ri_feature : string;
  ri_importance : Q;
  ri_value : Q
}.

(** The loop over [enumerate(feature_columns)]: [get_score i] is
    [importance_dict.get(f"f{i}")], [feature_value col] is
    [feature_values[col].iloc[0]]; only positive importances are kept. *)
Fixpoint collect_importance (cols : list string) (i : nat)
    (get_score : nat -> option Q) (feature_value : string -> Q)
    : list raw_importance :=
  match cols with
  | [] => []
  | col :: cols' =>
      let importance := match get_score i with Some x => x | None => 0 end in
      if Qltb 0 importance
      then {| ri_feature := col; ri_importance := importance;
              ri_value := feature_value col |}
           :: collect_importance cols' (S i) get_score feature_value
      else collect_importance cols' (S i) get_score feature_value
  end.

(** [list.sort(key=importance, reverse=True)]: stable, equal keys keep
    their order; insertion after every element of larger or equal key. *)
Fixpoint ins_desc (x : raw_importance) (l : list raw_importance) : list raw_importance :=
  match l with
  | [] => [x]
  | y :: l' => if Qle_bool (ri_importance x) (ri_importance y)
               then y :: ins_desc x l' else x :: l
  end.

Definition sort_desc (l : list raw_importance) : list raw_importance :=
  fold_left (fun acc x => ins_desc x acc) l [].

(** Python [max] over a non-empty list of floats. *)
Definition py_max (x : Q) (l : list Q) : Q :=
  fold_left (fun m y => if Qltb m y then y else m) l x.

Definition impact_of (normalized_imp : Q) : impact :=
  if Qltb (7 # 10) normalized_imp then high
  else if Qltb (4 # 10) normalized_imp then medium
  else low.

Definition get_feature_importance (feature_columns : list string)
    (get_score : nat -> option Q) (feature_value : string -> Q) (top_n : Z)
    : list FeatureImportance :=
  let feature_importance :=
    sort_desc (collect_importance feature_columns 0 get_score feature_value) in
  let top_features := py_take feature_importance top_n in
  let max_importance :=
    match top_features with
    | [] => 1
    | f :: fs => py_max (ri_importance f) (map ri_importance fs)
    end in
  map (fun feat =>
         let normalized_imp := ri_importance feat / max_importance in
         {| fi_feature := ri_feature feat;
            fi_importance := normalized_imp;
            fi_value := ri_value feat;
            fi_impact := impact_of normalized_imp |})
      top_features.

(** Python [enumerate]. *)
Definition enumerate {A} (l : list A) : list (nat * A) := combine (seq 0 (length l)) l.

(** Sum of a list of rationals. *)
Fixpoint Qsum (l : list Q) : Q :=
  match l with
  | [] => 0
  | x :: l' => x + Qsum l'
  end.

Definition Q_of_nat (n : nat) : Q := inject_Z (Z.of_nat n).


(** A row whose maximum is attained at index [m] only. *)
Definition unique_max (row : list Q) (m : nat) : Prop :=
  (m < length row)%nat /\
  forall j, (j < length row)%nat -> j <> m -> prob row j < prob row m.

(** Order of the explainability list: [b] does not rank above [a]. *)
Definition not_below (a b : raw_importance) : Prop := ri_importance b <= ri_importance a.

(** ** Concrete inputs *)

(** A request with only the exit relay known and no bandwidth reading. *)
Definition sample_request : PredictionRequest :=
  {| req_exit_fingerprint := "E1";
     req_exit_country := "DE";
     req_bandwidth := 0;
     req_setup_time := 0;
     req_middle_fingerprint := None;
     req_middle_country := None |}%string.

(** A training row whose three relays sit in three different countries. *)
Definition sample_training_circuit : circuit :=
  {| circuit_id := 1;
     guard_fingerprint := "G1";
     middle_fingerprint := "M1";
     exit_fingerprint := "E1";
     guard_country := "US";
     middle_country := "DE";
     exit_country := "FR";
     guard_bandwidth := 10;
     middle_bandwidth := 5;
     exit_bandwidth := 4;
     circuit_setup_duration := 1;
     total_bytes := 1000 |}%string.

(** Encoders fitted on a small corpus; the exit-country encoder knows
    [DE] and [US] only. *)
Definition sample_encoders : encoder_registry :=
  [("middle_fingerprint", le_fit ["M1"]);
   ("exit_fingerprint", le_fit ["E1"]);
   ("guard_country", le_fit ["US"]);
   ("middle_country", le_fit ["DE"]);
   ("exit_country", le_fit ["DE"; "US"]);
   ("guard_fingerprint", le_fit ["G1"; "G2"])]%string.


(** The same circuit with an exit country never seen at fit time. *)
Definition sample_unseen_circuit : circuit :=
  {| circuit_id := 8;
     guard_fingerprint := "G1";
     middle_fingerprint := "M1";
     exit_fingerprint := "E1";
     guard_country := "US";
     middle_country := "DE";
     exit_country := "JP";
     guard_bandwidth := 10;
     middle_bandwidth := 5;
     exit_bandwidth := 4;
     circuit_setup_duration := 1;
     total_bytes := 1000 |}%string.

(** A classifier that ranks the first guard class highest. *)
Definition sample_model : classifier := fun _ _ => [3 # 4; 1 # 4].

(* ------------------------------------------------------------------ *)
(** ** Python dictionaries and strings *)

(** A Python dict with distinct keys as an association list; [d.get(k)]. *)
Fixpoint dict_get {K V} (dec : forall x y : K, {x = y} + {x <> y})
    (d : list (K * V)) (k : K) : option V :=
  match d with
  | [] => None
  | (k', v) :: d' => if dec k' k then Some v else dict_get dec d' k
  end.

(** [d[k] = v]: an existing key keeps its place, a new key is appended. *)
Fixpoint dict_set {K V} (dec : forall x y : K, {x = y} + {x <> y})
    (d : list (K * V)) (k : K) (v : V) : list (K * V) :=
  match d with
  | [] => [(k, v)]
  | (k', v') :: d' => if dec k' k then (k', v) :: d' else (k', v') :: dict_set dec d' k v
  end.

(** [d.get(k, default)] *)
Definition dict_get_default {K V} (dec : forall x y : K, {x = y} + {x <> y})
    (d : list (K * V)) (k : K) (default : V) : V :=
  match dict_get dec d k with Some v => v | None => default end.

Definition pair_dec : forall x y : string * string, {x = y} + {x <> y}.
Proof. decide equality; apply string_dec. Defined.

(** [s[:n]] and, for [n > 0], [s[-n:]]. *)
Definition str_prefix (s : string) (n : nat) : string := substring 0 n s.
Definition str_suffix (s : string) (n : nat) : string := substring (String.length s - n) n s.

(** [str.isspace] on an ASCII character. *)
Definition is_py_space (a : Ascii.ascii) : bool :=
  let n := Ascii.nat_of_ascii a in
  ((9 <=? n) && (n <=? 13)) || ((28 <=? n) && (n <=? 32)).

Fixpoint lstrip (s : string) : string :=
  match s with
  | EmptyString => EmptyString
  | String a s' => if is_py_space a then lstrip s' else s
  end.

Definition str_rev (s : string) : string :=
  string_of_list_ascii (rev (list_ascii_of_string s)).

(** [str.strip()] *)
Definition py_strip (s : string) : string := str_rev (lstrip (str_rev (lstrip s))).

(* ------------------------------------------------------------------ *)
(** ** scripts/prepare_features.py: historical aggregates (lines 43-73) *)

(** [value_counts().to_dict()] and [groupby(keys).size().to_dict()]: one
    entry per distinct key with its number of occurrences. *)
Definition group_size {K} (dec : forall x y : K, {x = y} + {x <> y}) (keys : list K)
    : list (K * nat) :=
  map (fun k => (k, count_occ dec keys k)) (nodup dec keys).

(** [groupby(key)[val].mean().to_dict()] *)
Definition group_mean {K} (dec : forall x y : K, {x = y} + {x <> y}) (rows : list (K * Q))
    : list (K * Q) :=
  map (fun k =>
         let vs := map snd (filter (fun r => if dec (fst r) k then true else false) rows) in
         (k, Qsum vs / Q_of_nat (length vs)))
      (nodup dec (map fst rows)).

(** [df[col].map(d)]: a key absent from [d] gives NaN, here [None]. *)
Definition guard_usage_freq (df : list circuit) (r : circuit) : option nat :=
  dict_get string_dec (group_size string_dec (map guard_fingerprint df)) (guard_fingerprint r).

Definition middle_usage_freq (df : list circuit) (r : circuit) : option nat :=
  dict_get string_dec (group_size string_dec (map middle_fingerprint df)) (middle_fingerprint r).

Definition exit_usage_freq (df : list circuit) (r : circuit) : option nat :=
  dict_get string_dec (group_size string_dec (map exit_fingerprint df)) (exit_fingerprint r).

Definition guard_exit_key (r : circuit) : string * string :=
  (guard_fingerprint r, exit_fingerprint r).

Definition guard_middle_key (r : circuit) : string * string :=
  (guard_fingerprint r, middle_fingerprint r).

(** [pair_freq.get((guard, exit), 0)] *)
Definition guard_exit_pair_freq (df : list circuit) (r : circuit) : nat :=
  dict_get_default pair_dec (group_size pair_dec (map guard_exit_key df)) (guard_exit_key r) 0%nat.

Definition guard_avg_bandwidth (df : list circuit) (r : circuit) : option Q :=
  dict_get string_dec
    (group_mean string_dec (map (fun x => (guard_fingerprint x, guard_bandwidth x)) df))
    (guard_fingerprint r).

(** [guard_middle_freq.get((guard, middle), 0)] *)
Definition guard_middle_pair_freq (df : list circuit) (r : circuit) : nat :=
  dict_get_default pair_dec (group_size pair_dec (map guard_middle_key df)) (guard_middle_key r) 0%nat.

(** [groupby(['guard_fingerprint', 'exit_country']).size().reset_index(name='count')] *)
Definition guard_country_pref (df : list circuit) : list ((string * string) * nat) :=
  group_size pair_dec (map (fun x => (guard_fingerprint x, exit_country x)) df).

(** [.sort_values('count', ascending=False)]: pandas' default sort is not
    stable, so rows with equal counts come out in an unspecified order; a
    result of the sort is any reordering of the table by non-increasing
    count. *)
Definition sorted_by_count_desc (tbl sorted : list ((string * string) * nat)) : Prop :=
  Permutation sorted tbl /\ Sorted (fun a b => (snd b <= snd a)%nat) sorted.

(** [.groupby('guard_fingerprint')['exit_country'].first().to_dict()]: the
    first country listed for each guard. *)
Fixpoint group_first (rows : list (string * string)) : list (string * string) :=
  match rows with
  | [] => []
  | (g, c) :: rows' =>
      (g, c) :: filter (fun e => negb (String.eqb (fst e) g)) (group_first rows')
  end.

(** [int(x['exit_country'] == guard_top_country.get(x['guard_fingerprint'], ''))] *)
Definition guard_prefers_exit_country (sorted : list ((string * string) * nat))
    (r : circuit) : Q :=
  b2q (String.eqb (exit_country r)
         (dict_get_default string_dec (group_first (map fst sorted))
            (guard_fingerprint r) EmptyString)).

(** The label encoders of lines 77-89, fitted on the training corpus. *)
Definition training_encoders (df : list circuit) : encoder_registry :=
  map (fun '(col, get) => (col, le_fit (map get df))) encoded_columns ++
  [("guard_fingerprint"%string, le_fit (map guard_fingerprint df))].

(** [df[f'{col}_encoded'] = le.fit_transform(df[col])] *)
Definition training_encodings (df : list circuit) : py_result (list (list nat)) :=
  fold_right (fun '(_, get) acc =>
                col <- le_fit_transform (map get df) ;;
                rest <- acc ;;
                Ok (col :: rest))
             (Ok []) encoded_columns.

(* ------------------------------------------------------------------ *)
(** ** Column sets: the training CSV, [feature_cols] and the backend frame *)

(** scripts/generate_simulated_data.py, lines 202-210: the raw CSV header. *)
Definition raw_fieldnames : list string :=
  ["request_id"; "circuit_id"; "timestamp"; "status";
   "guard_fingerprint"; "guard_nickname"; "guard_address"; "guard_country";
   "middle_fingerprint"; "middle_nickname"; "middle_address"; "middle_country";
   "exit_fingerprint"; "exit_nickname"; "exit_address"; "exit_country";
   "build_time"; "purpose";
   "guard_bandwidth"; "middle_bandwidth"; "exit_bandwidth";
   "circuit_setup_duration"; "total_bytes"]%string.

(** The columns assigned by prepare_features.py [engineer_features], in
    order. *)
Definition prepare_features_assigned : list string :=
  ["bw_ratio_guard_middle"; "bw_ratio_guard_exit"; "bw_ratio_middle_exit";
   "bw_total"; "bw_min"; "bw_max"; "bw_std";
   "same_country_guard_middle"; "same_country_guard_exit";
   "same_country_middle_exit"; "all_same_country"; "country_diversity";
   "guard_usage_freq"; "middle_usage_freq"; "exit_usage_freq";
   "guard_exit_pair_freq"; "guard_avg_bandwidth"; "guard_middle_pair_freq";
   "guard_prefers_exit_country";
   "middle_fingerprint_encoded"; "exit_fingerprint_encoded";
   "guard_country_encoded"; "middle_country_encoded"; "exit_country_encoded";
   "guard_label";
   "bw_guard_x_setup"; "bw_total_x_bytes"]%string.

(** The columns of the engineered CSV written from a raw frame. *)
Definition engineered_columns (raw : list string) : list string :=
  df_assign_all raw prepare_features_assigned.

(** train_xgboost.py [main], lines 130-136. *)
Definition exclude_cols : list string :=
  ["request_id"; "circuit_id"; "timestamp"; "build_time"; "status"; "purpose";
   "guard_fingerprint"; "guard_nickname"; "guard_address"; "guard_country";
   "middle_fingerprint"; "middle_nickname"; "middle_address"; "middle_country";
   "exit_fingerprint"; "exit_nickname"; "exit_address"; "exit_country";
   "guard_label"]%string.

(** [[col for col in df.columns if col not in exclude_cols]] (line 138). *)
Definition feature_cols_of (columns : list string) : list string :=
  filter (fun col => negb (existsb (String.eqb col) exclude_cols)) columns.

(** backend/main.py [engineer_features]: the keys of [data] (lines
    197-203), then the columns assigned at lines 213-266. *)
Definition backend_base_columns : list string :=
  ["guard_bandwidth"; "middle_bandwidth"; "exit_bandwidth";
   "circuit_setup_duration"; "total_bytes"]%string.

Definition backend_assigned : list string :=
  ["bw_ratio_guard_middle"; "bw_ratio_guard_exit"; "bw_ratio_middle_exit";
   "bw_total"; "bw_min"; "bw_max"; "bw_std";
   "same_country_guard_middle"; "same_country_guard_exit";
   "same_country_middle_exit"; "all_same_country"; "country_diversity";
   "guard_usage_freq"; "middle_usage_freq"; "exit_usage_freq";
   "guard_exit_pair_freq"; "guard_avg_bandwidth"; "guard_middle_pair_freq";
   "guard_prefers_exit_country";
   "middle_fingerprint_encoded"; "exit_fingerprint_encoded";
   "guard_country_encoded"; "middle_country_encoded"; "exit_country_encoded";
   "bw_guard_x_setup"; "bw_total_x_bytes"]%string.

Definition backend_columns : list string :=
  df_assign_all backend_base_columns backend_assigned.

(* ------------------------------------------------------------------ *)
(** ** backend/main.py: service state, [root] and [model_info] *)

(** The module globals set by [load_model]: [guard_fingerprints] is the
    numpy array [encoders['guard_fingerprint'].classes_]. *)
Record ServiceState := {
  st_model_loaded : bool;
  st_guard_fingerprints : option (list string);
  st_feature_columns : option (list string)
}.

(** [bool(arr)] on a numpy array of strings: the truth of its only
    element; any other size raises [ValueError] (for the empty array since
    NumPy 2.2). *)
Definition np_array_truth (a : list string) : py_result bool :=
  match a with
  | [x] => Ok (negb (String.eqb x EmptyString))
  | _ => Raise ValueError
  end.

Record RootStatus := {
  rs_model_loaded : bool;
  rs_guard_count : nat
}.

(** [root] (lines 418-426). *)
Definition root (st : ServiceState) : RootStatus :=
  {| rs_model_loaded := st_model_loaded st;
     rs_guard_count := match st_guard_fingerprints st with
                       | Some a => length a
                       | None => 0%nat
                       end |}.

Record ModelInfo := {
  mi_num_classes : nat;
  mi_num_features : nat;
  mi_feature_list : list string
}.

(** [model_info] (lines 473-482): [x if x else d] tests the truth of
    [guard_fingerprints] and of the [feature_columns] list. *)
Definition model_info (st : ServiceState) : py_result ModelInfo :=
  num_classes <- match st_guard_fingerprints st with
                 | None => Ok 0%nat
                 | Some a => t <- np_array_truth a ;; Ok (if t then length a else 0%nat)
                 end ;;
  let fc := match st_feature_columns st with Some l => l | None => [] end in
  Ok {| mi_num_classes := num_classes;
        mi_num_features := length fc;
        mi_feature_list := fc |}.

(** The state after a successful [load_model] with the artefacts written by
    the training scripts. *)
Definition loaded_state (encoders : encoder_registry) (feature_columns : list string)
    : py_result ServiceState :=
  le <- get_encoder encoders "guard_fingerprint"%string ;;
  Ok {| st_model_loaded := true;
        st_guard_fingerprints := Some (classes_ le);
        st_feature_columns := Some feature_columns |}.

(* ------------------------------------------------------------------ *)
(** ** backend/main.py: [generate_topology] and the topology endpoint

    The random draws that no property reads (node country and bandwidth,
    link weight and latency) and the timestamp and note are left out of
    the records; [random.sample] is a parameter. *)

Inductive NodeType := guard | middle | exit.

Record TopologyNode := {
  tn_id : string;
  tn_fingerprint : string;
  tn_nickname : string;
  tn_role : NodeType;
  tn_degree : nat
}.

Record TopologyLink := {
  tl_source : string;
  tl_target : string
}.

Record TopologyResponse := {
  node_count : nat;
  link_count : nat;
  tr_nodes : list TopologyNode;
  tr_links : list TopologyLink
}.

(** [random.sample(population, k)] *)
Definition sampler := list string -> nat -> list string.

(** What [random.sample] guarantees: [k] elements taken at [k] distinct
    positions of the population. *)
Definition sample_contract (sample : sampler) : Prop :=
  forall pop k, (k <= length pop)%nat ->
    exists idxs, NoDup idxs /\ length idxs = k /\
      Forall (fun i => i < length pop)%nat idxs /\
      sample pop k = map (fun i => nth i pop EmptyString) idxs.

Definition hex_digit (n : nat) : Ascii.ascii :=
  Ascii.ascii_of_nat (if n <? 10 then 48 + n else 55 + n).

Fixpoint hex_of_nat_aux (fuel n : nat) (acc : string) : string :=
  match fuel with
  | O => acc
  | S f =>
      let acc' := String (hex_digit (n mod 16)) acc in
      if n <? 16 then acc' else hex_of_nat_aux f (n / 16) acc'
  end.

Fixpoint zeros (k : nat) : string :=
  match k with
  | O => EmptyString
  | S k' => String (Ascii.ascii_of_nat 48) (zeros k')
  end.

(** [f"{i:04X}"] *)
Definition format_04X (n : nat) : string :=
  let h := hex_of_nat_aux (S n) n EmptyString in
  String.append (zeros (4 - String.length h)) h.

(** [[f"FAKE{i:04X}" for i in range(200)]] *)
Definition fake_fingerprints : list string :=
  map (fun i => String.append "FAKE"%string (format_04X i)) (seq 0 200).

Definition role_prefix (role : NodeType) : string :=
  match role with
  | guard => "Guard"%string
  | middle => "Middle"%string
  | exit => "Exit"%string
  end.

Definition mk_node (fingerprint : string) (role : NodeType) : TopologyNode :=
  {| tn_id := fingerprint;
     tn_fingerprint := fingerprint;
     tn_nickname := String.append (role_prefix role) (str_suffix fingerprint 5);
     tn_role := role;
     tn_degree := 0 |}.

(** Lines 401-404: [degree_map[x] = degree_map.get(x, 0) + 1] for the
    source, then the target, of every link. *)
Definition bump (dm : list (string * nat)) (x : string) : list (string * nat) :=
  dict_set string_dec dm x (S (dict_get_default string_dec dm x 0%nat)).

Definition degree_map_of (links : list TopologyLink) : list (string * nat) :=
  fold_left (fun dm lk => bump (bump dm (tl_source lk)) (tl_target lk)) links [].

Definition circuit_links (gme : string * (string * string)) : list TopologyLink :=
  let '(g, (m, e)) := gme in
  [{| tl_source := g; tl_target := m |}; {| tl_source := m; tl_target := e |}].

Definition generate_topology (guard_fingerprints : option (list string))
    (sample : sampler) (limit : Z) : TopologyResponse :=
  let fingerprints := match guard_fingerprints with
                      | Some l => l
                      | None => fake_fingerprints
                      end in
  let sample_size := Nat.min (Z.to_nat (Z.max 10 (limit / 3))) (length fingerprints) in
  let sampled_guards := sample fingerprints sample_size in
  let sampled_middles :=
    map (fun fp => String.append "MID-"%string (str_prefix fp 12)) (firstn sample_size sampled_guards) in
  let sampled_exits :=
    map (fun fp => String.append "EXT-"%string (str_suffix fp 12)) (firstn sample_size sampled_guards) in
  let nodes := map (fun fp => mk_node fp guard) sampled_guards ++
               map (fun fp => mk_node fp middle) sampled_middles ++
               map (fun fp => mk_node fp exit) sampled_exits in
  let links := flat_map circuit_links
                 (combine sampled_guards (combine sampled_middles sampled_exits)) in
  let degree_map := degree_map_of links in
  let nodes' := map (fun n => {| tn_id := tn_id n;
                                 tn_fingerprint := tn_fingerprint n;
                                 tn_nickname := tn_nickname n;
                                 tn_role := tn_role n;
                                 tn_degree := dict_get_default string_dec degree_map (tn_id n) 0%nat |})
                    nodes in
  {| node_count := length nodes';
     link_count := length links;
     tr_nodes := nodes';
     tr_links := links |}.

(** [topology] (lines 485-498): an [HTTPException] carries its status. *)
Definition topology (guard_fingerprints : option (list string)) (sample : sampler)
    (limit : Z) : TopologyResponse + Z :=
  if (limit <? 10)%Z then inr 400%Z
  else if (150 <? limit)%Z then inr 400%Z
  else inl (generate_topology guard_fingerprints sample limit).

(* ------------------------------------------------------------------ *)
(** ** backend/main.py [load_model]: relay metadata from the engineered CSV
    (lines 141-183) *)

Record GuardMeta := {
  gm_nickname : string;
  gm_address : string;
  gm_country : string
}.

(** A [csv.DictReader] row: a field a short line lacks (value [None]) is
    left out, like a column absent from the header; both are falsy. *)
Definition csv_dict_row := list (string * string).

(** Lines 155-162: the entry a headered row stores, if any. *)
Definition header_row_entry (row : csv_dict_row) : option (string * GuardMeta) :=
  let fp := py_strip (py_or_default (dict_get string_dec row "guard_fingerprint"%string) EmptyString) in
  if negb (Nat.eqb (String.length fp) 40) then None
  else Some (fp, {| gm_nickname := py_or_default (dict_get string_dec row "guard_nickname"%string)
                                     (String.append "Guard_"%string (str_prefix fp 6));
                    gm_address := py_or_default (dict_get string_dec row "guard_address"%string) "Unknown"%string;
                    gm_country := py_or_default (dict_get string_dec row "guard_country"%string) "Unknown"%string |}).

(** Lines 167-179: the entry a positional row stores, if any. *)
Definition raw_row_entry (row : list string) : option (string * GuardMeta) :=
  if (length row <? 8)%nat then None
  else
    let fp := py_strip (nth 4 row EmptyString) in
    if negb (Nat.eqb (String.length fp) 40) then None
    else
      let nickname := if (5 <? length row)%nat then py_strip (nth 5 row EmptyString) else EmptyString in
      let ip_addr := if (6 <? length row)%nat then py_strip (nth 6 row EmptyString) else EmptyString in
      let country := if (7 <? length row)%nat then py_strip (nth 7 row EmptyString) else EmptyString in
      Some (fp, {| gm_nickname := py_or_default (Some nickname) (String.append "Guard_"%string (str_prefix fp 6));
                   gm_address := py_or_default (Some ip_addr) "Unknown"%string;
                   gm_country := py_or_default (Some country) "Unknown"%string |}).

(** One step of either loop: [guard_meta[fp] = {...}; loaded += 1]. *)
Definition load_step (st : list (string * GuardMeta) * nat) (entry : option (string * GuardMeta))
    : list (string * GuardMeta) * nat :=
  let '(meta, loaded) := st in
  match entry with
  | None => (meta, loaded)
  | Some (fp, m) => (dict_set string_dec meta fp m, S loaded)
  end.

(** The headered and the positional loops, from the empty [guard_meta]. *)
Definition load_meta_header (rows : list csv_dict_row) : list (string * GuardMeta) * nat :=
  fold_left load_step (map header_row_entry rows) ([], 0%nat).

Definition load_meta_raw (rows : list (list string)) : list (string * GuardMeta) * nat :=
  fold_left load_step (map raw_row_entry rows) ([], 0%nat).

(** [importance_dict.get(f'f{i}', 0.0)] of [get_feature_importance]. *)
Definition score_of (get_score : nat -> option Q) (i : nat) : Q :=
  match get_score i with Some x => x | None => 0 end.

(* ================================================================== *)
(** * Proofs *)

(** ** Python slicing *)

Lemma py_take_firstn {A} (l : list A) (k : Z) :
  exists n, py_take l k = firstn n l.
Proof.
  unfold py_take; destruct (0 <=? k)%Z; eexists; reflexivity.
Qed.

Lemma py_take_length_nonneg {A} (l : list A) (k : Z) :
  (0 <= k)%Z -> length (py_take l k) = Nat.min (Z.to_nat k) (length l).
Proof.
  intro Hk; unfold py_take.
  destruct (Z.leb_spec 0 k); [|lia].
  apply length_firstn.
Qed.

(** ** Sorting lemmas *)

Section SortedFacts.
Context {A : Type} (R : A -> A -> Prop).

Lemma StronglySorted_app (R' : A -> A -> Prop) (l1 l2 : list A) :
  StronglySorted R' l1 -> StronglySorted R' l2 ->
  (forall x y, In x l1 -> In y l2 -> R' x y) ->
  StronglySorted R' (l1 ++ l2).
Proof.
  induction l1 as [|a l1 IH]; simpl; intros H1 H2 Hxy; auto.
  apply StronglySorted_inv in H1 as [H1 Ha].
  constructor.
  - apply IH; auto.
  - apply Forall_app; split; auto.
    apply Forall_forall; intros y Hy; apply Hxy; simpl; auto.
Qed.

Lemma StronglySorted_rev (l : list A) :
  StronglySorted R l -> StronglySorted (fun a b => R b a) (rev l).
Proof.
  induction l as [|a l IH]; simpl; intros H.
  - constructor.
  - apply StronglySorted_inv in H as [H Ha].
    apply StronglySorted_app.
    + apply IH, H.
    + repeat constructor.
    + intros x y Hx [<- | []].
      apply in_rev in Hx. rewrite Forall_forall in Ha. apply Ha, Hx.
Qed.

Lemma StronglySorted_firstn (n : nat) (l : list A) :
  StronglySorted R l -> StronglySorted R (firstn n l).
Proof.
  revert l; induction n as [|n IH]; intros [|a l] H; simpl; try constructor.
  - apply StronglySorted_inv in H as [H Ha].
    apply IH, H.
  - apply StronglySorted_inv in H as [H Ha].
    rewrite Forall_forall in *; intros x Hx.
    apply Ha. rewrite <- (firstn_skipn n l). apply in_or_app; auto.
Qed.
End SortedFacts.

(** ** The stable argsort *)

Section ArgsortFacts.
Variable row : list Q.

Lemma ins_idx_perm (i : nat) (l : list nat) :
  Permutation (ins_idx row i l) (i :: l).
Proof.
  induction l as [|j l IH]; simpl; auto.
  destruct (Qle_bool (prob row j) (prob row i)); auto.
  rewrite IH. apply perm_swap.
Qed.

Lemma fold_ins_perm (l acc : list nat) :
  Permutation (fold_left (fun acc i => ins_idx row i acc) l acc) (l ++ acc).
Proof.
  revert acc; induction l as [|a l IH]; intros acc; simpl; auto.
  rewrite IH, ins_idx_perm. symmetry. apply Permutation_middle.
Qed.

Lemma argsort_perm : Permutation (argsort row) (seq 0 (length row)).
Proof.
  unfold argsort. rewrite fold_ins_perm, app_nil_r. reflexivity.
Qed.

Lemma argsort_length : length (argsort row) = length row.
Proof.
  rewrite (Permutation_length argsort_perm). apply length_seq.
Qed.

Lemma asc_trans (a b c : nat) :
  asc row a b -> asc row b c -> asc row a c.
Proof.
  unfold asc; intros [H1|[H1 H1']] [H2|[H2 H2']].
  - left; lra.
  - left; lra.
  - left; lra.
  - right; split; [lra|lia].
Qed.

Lemma asc_of_le (j i : nat) :
  Qle_bool (prob row j) (prob row i) = true -> (j < i)%nat -> asc row j i.
Proof.
  intros H Hlt; apply Qle_bool_iff in H.
  destruct (Qle_lt_or_eq _ _ H) as [H'|H']; unfold asc; auto.
Qed.

Lemma asc_of_not_le (j i : nat) :
  Qle_bool (prob row j) (prob row i) = false -> asc row i j.
Proof.
  intros H; left. apply Qnot_le_lt. intro H'.
  apply Qle_bool_iff in H'. congruence.
Qed.

Lemma ins_idx_hd (j i : nat) (l : list nat) :
  HdRel (asc row) j l -> asc row j i -> HdRel (asc row) j (ins_idx row i l).
Proof.
  destruct l as [|x l]; simpl; intros Hh Hji.
  - constructor; auto.
  - destruct (Qle_bool (prob row x) (prob row i)); constructor; auto.
    apply HdRel_inv in Hh; auto.
Qed.

Lemma ins_idx_sorted (i : nat) (l : list nat) :
  Sorted (asc row) l -> Forall (fun j => (j < i)%nat) l ->
  Sorted (asc row) (ins_idx row i l).
Proof.
  induction l as [|j l IH]; simpl; intros Hs Hf.
  - repeat constructor.
  - apply Sorted_inv in Hs as [Hs Hh].
    apply Forall_cons_iff in Hf as [Hj Hf].
    destruct (Qle_bool (prob row j) (prob row i)) eqn:E.
    + constructor; [apply IH; auto|].
      apply ins_idx_hd; auto. apply asc_of_le; auto.
    + constructor; [constructor; auto|].
      constructor. apply asc_of_not_le; auto.
Qed.

Lemma fold_ins_sorted (n s : nat) (acc : list nat) :
  Sorted (asc row) acc -> Forall (fun j => (j < s)%nat) acc ->
  Sorted (asc row) (fold_left (fun acc i => ins_idx row i acc) (seq s n) acc).
Proof.
  revert s acc; induction n as [|n IH]; intros s acc Hs Hf; simpl; auto.
  apply IH.
  - apply ins_idx_sorted; auto.
  - apply Forall_forall; intros x Hx.
    apply (Permutation_in _ (ins_idx_perm s acc)) in Hx as [<-|Hx]; [lia|].
    rewrite Forall_forall in Hf; specialize (Hf _ Hx); lia.
Qed.

Lemma argsort_sorted : StronglySorted (asc row) (argsort row).
Proof.
  apply Sorted_StronglySorted; [intros a b c; apply asc_trans|].
  apply fold_ins_sorted; constructor.
Qed.

Lemma top_k_indices_sorted (k : Z) :
  StronglySorted (ranked_before row) (top_k_indices row k).
Proof.
  unfold top_k_indices. destruct (py_take_firstn (rev (argsort row)) k) as [n ->].
  apply StronglySorted_firstn, (StronglySorted_rev (asc row)), argsort_sorted.
Qed.
End ArgsortFacts.

(** ** [np.argsort] results *)

Lemma Sorted_weaken {A} (R S : A -> A -> Prop) (l : list A) :
  (forall x y, R x y -> S x y) -> Sorted R l -> Sorted S l.
Proof.
  intros H. induction 1 as [|a l Hs IH Hh]; constructor; auto.
  destruct Hh; constructor; auto.
Qed.

(** The stable order is one of the orders [np.argsort] may return. *)
Lemma argsort_valid (row : list Q) : argsort_result row (argsort row).
Proof.
  split; [apply argsort_perm|].
  apply (Sorted_weaken (asc row)).
  - intros x y [H|[H _]]; [apply Qlt_le_weak, H|rewrite H; apply Qle_refl].
  - apply StronglySorted_Sorted, argsort_sorted.
Qed.


Lemma argsort_result_In (row : list Q) (perm : list nat) (x : nat) :
  argsort_result row perm -> In x perm <-> (x < length row)%nat.
Proof.
  intros [Hp _]. split; intros H.
  - apply (Permutation_in _ Hp), in_seq in H. lia.
  - apply (Permutation_in _ (Permutation_sym Hp)), in_seq. lia.
Qed.

Lemma argsort_result_desc (row : list Q) (perm : list nat) :
  argsort_result row perm ->
  StronglySorted (fun a b => prob row b <= prob row a) (rev perm).
Proof.
  intros [_ Hs].
  apply (StronglySorted_rev (fun i j => prob row i <= prob row j)).
  apply Sorted_StronglySorted; [intros x y z; apply Qle_trans|exact Hs].
Qed.


(** ** C2: the top-K extractor *)




(** ** Sums of values in [0, 1] *)

Lemma Q_of_nat_S (n : nat) : Q_of_nat (S n) == Q_of_nat n + 1.
Proof.
  unfold Q_of_nat. rewrite Nat2Z.inj_succ, <- Z.add_1_r, inject_Z_plus. reflexivity.
Qed.

Lemma Q_of_nat_nonneg (n : nat) : 0 <= Q_of_nat n.
Proof.
  unfold Q_of_nat. change 0 with (inject_Z 0). rewrite <- Zle_Qle. lia.
Qed.

Lemma Qsum_bounds (l : list Q) :
  Forall (fun x => 0 <= x <= 1) l -> 0 <= Qsum l <= Q_of_nat (length l).
Proof.
  induction l as [|x l IH]; simpl; intros H.
  - split; [apply Qle_refl|apply Q_of_nat_nonneg].
  - inversion H as [|? ? Hx Hl]; subst.
    specialize (IH Hl). rewrite Q_of_nat_S. lra.
Qed.

Lemma Qsum_zero (l : list Q) :
  Forall (fun x => 0 <= x <= 1) l ->
  (Qsum l == 0 <-> Forall (fun x => x == 0) l).
Proof.
  induction l as [|x l IH]; simpl; intros H.
  - split; auto. intros; reflexivity.
  - inversion H as [|? ? Hx Hl]; subst.
    pose proof (Qsum_bounds l Hl) as Hb. specialize (IH Hl).
    split.
    + intros Hs. assert (x == 0) by lra. assert (Qsum l == 0) by lra.
      constructor; auto. apply IH; auto.
    + intros Hf. inversion Hf as [|? ? H0 Hf']; subst.
      apply IH in Hf'. lra.
Qed.

Lemma Qsum_full (l : list Q) :
  Forall (fun x => 0 <= x <= 1) l ->
  (Qsum l == Q_of_nat (length l) <-> Forall (fun x => x == 1) l).
Proof.
  induction l as [|x l IH]; simpl; intros H.
  - split; auto. intros; reflexivity.
  - inversion H as [|? ? Hx Hl]; subst.
    pose proof (Qsum_bounds l Hl) as Hb. specialize (IH Hl).
    rewrite Q_of_nat_S. split.
    + intros Hs. assert (x == 1) by lra. assert (Qsum l == Q_of_nat (length l)) by lra.
      constructor; auto. apply IH; auto.
    + intros Hf. inversion Hf as [|? ? H1 Hf']; subst.
      apply IH in Hf'. lra.
Qed.

Lemma Q_mean_facts (s n : Q) :
  0 < n -> 0 <= s <= n ->
  0 <= s / n <= 1 /\ (s / n == 0 <-> s == 0) /\ (s / n == 1 <-> s == n).
Proof.
  intros Hn Hs.
  assert (Hn' : ~ n == 0) by lra.
  assert (Hm : s / n * n == s) by (field; auto).
  repeat split.
  - apply Qle_shift_div_l; lra.
  - apply Qle_shift_div_r; lra.
  - intros H. rewrite <- Hm, H. lra.
  - intros H. rewrite H. field; auto.
  - intros H. rewrite <- Hm, H. lra.
  - intros H. rewrite H. field; auto.
Qed.

(** ** Reciprocal rank of one example *)

Lemma index_of_None (x : nat) (l : list nat) : index_of x l = None <-> ~ In x l.
Proof.
  induction l as [|y l IH]; simpl.
  - tauto.
  - destruct (Nat.eqb_spec y x) as [->|Hne].
    + split; [discriminate|tauto].
    + destruct (index_of x l) as [n|]; simpl.
      * split; [discriminate|]. intros H. exfalso. apply H. right.
        destruct (in_dec Nat.eq_dec x l) as [Hin|Hin]; auto.
        apply IH in Hin. discriminate.
      * assert (~ In x l) by (apply IH; reflexivity).
        split; [intros _ [?|?]; auto|reflexivity].
Qed.

Lemma recip_facts (pos : nat) :
  let r := 1 / inject_Z (Z.of_nat (S pos)) in
  0 < r /\ r <= 1 /\ (r == 1 <-> pos = 0%nat).
Proof.
  intros r.
  assert (Hd : 1 <= inject_Z (Z.of_nat (S pos))).
  { change 1 with (inject_Z 1). rewrite <- Zle_Qle. lia. }
  assert (Hd0 : 0 < inject_Z (Z.of_nat (S pos))) by lra.
  split; [|split; [|split]].
  - unfold r. apply Qlt_shift_div_l; lra.
  - unfold r. apply Qle_shift_div_r; lra.
  - intros H. destruct pos as [|p]; auto. exfalso.
    assert (Hd2 : 2 <= inject_Z (Z.of_nat (S (S p)))).
    { change 2 with (inject_Z 2). rewrite <- Zle_Qle. lia. }
    assert (Hr : r * inject_Z (Z.of_nat (S (S p))) == 1) by (unfold r; field; lra).
    rewrite H in Hr. lra.
  - intros ->. unfold r. reflexivity.
Qed.

Lemma reciprocal_rank_bounds (row : list Q) (t : nat) (k : Z) :
  0 <= reciprocal_rank row t k <= 1.
Proof.
  unfold reciprocal_rank. destruct (index_of t (top_k_indices row k)) as [pos|].
  - destruct (recip_facts pos) as (H1 & H2 & _). split; lra.
  - split; lra.
Qed.

Lemma reciprocal_rank_zero (row : list Q) (t : nat) (k : Z) :
  reciprocal_rank row t k == 0 <-> ~ In t (top_k_indices row k).
Proof.
  rewrite <- index_of_None. unfold reciprocal_rank.
  destruct (index_of t (top_k_indices row k)) as [pos|].
  - destruct (recip_facts pos) as (H1 & _ & _). split; [lra|discriminate].
  - split; reflexivity.
Qed.

Lemma reciprocal_rank_one (row : list Q) (t : nat) (k : Z) :
  reciprocal_rank row t k == 1 <-> index_of t (top_k_indices row k) = Some 0%nat.
Proof.
  unfold reciprocal_rank.
  destruct (index_of t (top_k_indices row k)) as [pos|].
  - destruct (recip_facts pos) as (_ & _ & H3). rewrite H3.
    split; [intros ->|injection 1]; auto.
  - split; [intros H; exfalso; lra|discriminate].
Qed.

(** ** The [calculate_mrr] loop *)

Lemma length_enumerate_from {A} (i : nat) (l : list A) :
  length (combine (seq i (length l)) l) = length l.
Proof.
  rewrite length_combine, length_seq. apply Nat.min_id.
Qed.

Lemma mrr_loop_ok (P : list (list Q)) (k : Z) (ys : list nat) (i : nat) (acc : Q) :
  (i + length ys <= length P)%nat ->
  exists m, mrr_loop P ys i k acc = Ok m /\
    m == acc + Qsum (map (fun '(j, t) => reciprocal_rank (nth j P []) t k)
                         (combine (seq i (length ys)) ys)).
Proof.
  revert i acc; induction ys as [|t ys IH]; intros i acc Hlen; simpl.
  - exists acc; split; [reflexivity|lra].
  - destruct (nth_error P i) as [row|] eqn:E.
    + apply (nth_error_nth P i []) in E as Hrow.
      destruct (IH (S i) (acc + reciprocal_rank row t k)) as (m & Hm & Heq); [simpl in Hlen; lia|].
      exists m; split; auto. rewrite Heq, Hrow. lra.
    + apply nth_error_None in E. simpl in Hlen. lia.
Qed.

Lemma calculate_mrr_defined (y_true : list nat) (P : list (list Q)) (k : Z) :
  y_true <> [] -> length P = length y_true ->
  exists m, calculate_mrr y_true P k = Ok m /\
    m == (0 + Qsum (map (fun '(j, t) => reciprocal_rank (nth j P []) t k)
                        (enumerate y_true))) / Q_of_nat (length y_true).
Proof.
  intros Hne Hlen.
  destruct (mrr_loop_ok P k y_true 0 0) as (m0 & Hloop & Hm0); [simpl; lia|].
  unfold calculate_mrr. rewrite Hloop. simpl.
  destruct (Nat.eqb_spec (length y_true) 0) as [Hz|_].
  - destruct y_true; simpl in Hz; congruence.
  - eexists; split; [reflexivity|]. unfold Q_of_nat, enumerate. rewrite Hm0. reflexivity.
Qed.

(** ** C5: MRR *)

(** C5.  For every non-empty [y_true] and probability matrix with one row
    per label, [calculate_mrr y_true P k] returns the mean over
    [enumerate(y_true)] of [1/rank] (rank = 1-based position of the true
    label in the row's top-k list) or 0 when absent; the result lies in
    [0, 1], is 0 exactly when no true label is in its top-k list, and is 1
    exactly when every true label is at rank 1. *)
Theorem calculate_mrr_mean_and_bounds (y_true : list nat) (P : list (list Q)) (k : Z) :
  y_true <> [] -> length P = length y_true ->
  exists m, calculate_mrr y_true P k = Ok m /\
    m == Qsum (map (fun '(i, t) => reciprocal_rank (nth i P []) t k) (enumerate y_true))
         / Q_of_nat (length y_true) /\
    0 <= m <= 1 /\
    (m == 0 <-> Forall (fun '(i, t) => ~ In t (top_k_indices (nth i P []) k))
                       (enumerate y_true)) /\
    (m == 1 <-> Forall (fun '(i, t) => index_of t (top_k_indices (nth i P []) k) = Some 0%nat)
                       (enumerate y_true)).
Proof.
  intros Hne Hlen.
  destruct (mrr_loop_ok P k y_true 0 0) as (m0 & Hloop & Hm0); [simpl; lia|].
  set (terms := map (fun '(i, t) => reciprocal_rank (nth i P []) t k) (enumerate y_true)).
  assert (Hn : (length y_true <> 0)%nat) by (destruct y_true; simpl; congruence).
  unfold calculate_mrr. rewrite Hloop. simpl.
  destruct (Nat.eqb_spec (length y_true) 0) as [|_]; [contradiction|].
  exists (m0 / inject_Z (Z.of_nat (length y_true))). split; [reflexivity|].
  fold (Q_of_nat (length y_true)).
  assert (Hm0' : m0 == Qsum terms) by (rewrite Hm0; unfold terms, enumerate; lra).
  rewrite Hm0'.
  assert (Hb : Forall (fun x => 0 <= x <= 1) terms).
  { unfold terms. apply Forall_map, Forall_forall. intros [i t] _.
    apply reciprocal_rank_bounds. }
  assert (Htl : length terms = length y_true).
  { unfold terms, enumerate. rewrite length_map. apply length_enumerate_from. }
  pose proof (Qsum_bounds terms Hb) as Hs. rewrite Htl in Hs.
  assert (Hpos : 0 < Q_of_nat (length y_true)).
  { unfold Q_of_nat. change 0 with (inject_Z 0). rewrite <- Zlt_Qlt. lia. }
  destruct (Q_mean_facts (Qsum terms) (Q_of_nat (length y_true)) Hpos Hs)
    as (Hrange & Hz & Ho).
  split; [reflexivity|]. split; [exact Hrange|]. split.
  - rewrite Hz, (Qsum_zero terms Hb). unfold terms. rewrite Forall_map.
    rewrite !Forall_forall; split; intros Hf [i t] Hin; specialize (Hf _ Hin);
      simpl in *; apply reciprocal_rank_zero; auto.
  - rewrite Ho, <- Htl, (Qsum_full terms Hb). unfold terms. rewrite Forall_map.
    rewrite !Forall_forall; split; intros Hf [i t] Hin; specialize (Hf _ Hin);
      simpl in *; apply reciprocal_rank_one; auto.
Qed.

Lemma calculate_mrr_mean_and_bounds_witness :
  exists m, calculate_mrr [0%nat] [[1#10; 7#10; 2#10]] 3 = Ok m /\
    m == Qsum (map (fun '(i, t) => reciprocal_rank (nth i [[1#10; 7#10; 2#10]] []) t 3)
                   (enumerate [0%nat])) / Q_of_nat 1 /\
    0 <= m <= 1 /\
    (m == 0 <-> Forall (fun '(i, t) => ~ In t (top_k_indices (nth i [[1#10; 7#10; 2#10]] []) 3))
                       (enumerate [0%nat])) /\
    (m == 1 <-> Forall (fun '(i, t) =>
                  index_of t (top_k_indices (nth i [[1#10; 7#10; 2#10]] []) 3) = Some 0%nat)
                       (enumerate [0%nat])).
Proof.
  apply (calculate_mrr_mean_and_bounds [0%nat] [[1#10; 7#10; 2#10]] 3);
    [discriminate|reflexivity].
Defined.

(** The two MRR scenarios of the specification. *)
Example mrr_scenario_rank1 :
  calculate_mrr [1%nat] [[1#10; 7#10; 2#10]] 3 = Ok 1.
Proof. reflexivity. Qed.

Example mrr_scenario_rank3 :
  calculate_mrr [0%nat] [[1#10; 7#10; 2#10]] 3 = Ok (1 # 3).
Proof. reflexivity. Qed.

(** ** C9: MRR on an empty label list *)

(** C9.  [calculate_mrr] divides by [len(y_true)] with no guard: on an
    empty label list it raises [ZeroDivisionError] (no MRR value, neither
    0 nor a dedicated validation error), while every non-empty label list
    with one probability row per label yields a value. *)
Theorem calculate_mrr_empty_raises (P : list (list Q)) (k : Z) :
  calculate_mrr [] P k = Raise ZeroDivisionError /\
  (forall y_true, y_true <> [] -> length P = length y_true ->
     exists m, calculate_mrr y_true P k = Ok m).
Proof.
  split; [reflexivity|].
  intros y_true Hne Hlen.
  destruct (calculate_mrr_defined y_true P k Hne Hlen) as [m [Hm _]].
  exists m; exact Hm.
Qed.

Lemma calculate_mrr_empty_raises_witness :
  calculate_mrr [] [[1#2; 1#2]] 1 = Raise ZeroDivisionError /\
  (exists m, calculate_mrr [0%nat] [[1#2; 1#2]] 1 = Ok m).
Proof.
  destruct (calculate_mrr_empty_raises [[1#2; 1#2]] 1) as [H1 H2].
  split; [exact H1|]. apply H2; [discriminate|reflexivity].
Defined.

(** ** [np.argmax] *)

Lemma argmax_from_spec (l : list Q) (i best : nat) (bv : Q) :
  exists v,
    ((v = bv /\ argmax_from l i best bv = best) \/
     (exists j, nth_error l j = Some v /\ argmax_from l i best bv = (i + j)%nat)) /\
    bv <= v /\ Forall (fun x => x <= v) l.
Proof.
  revert i best bv; induction l as [|x l IH]; intros i best bv; simpl.
  - exists bv. split; [left; auto|split; [apply Qle_refl|constructor]].
  - destruct (Qltb bv x) eqn:E; unfold Qltb in E.
    + assert (Hlt : bv < x).
      { apply Qnot_le_lt. intro H. apply Qle_bool_iff in H. rewrite H in E. discriminate. }
      destruct (IH (S i) i x) as (v & Hr & Hxv & Hf).
      exists v. split; [right|split; [lra|constructor; auto]].
      destruct Hr as [[-> ->]|(j & Hj & ->)].
      * exists 0%nat; split; [reflexivity|lia].
      * exists (S j); split; [exact Hj|lia].
    + assert (Hle : x <= bv).
      { apply Qle_bool_iff. destruct (Qle_bool x bv); auto. }
      destruct (IH (S i) best bv) as (v & Hr & Hbv & Hf).
      exists v. split; [|split; [exact Hbv|constructor; [lra|exact Hf]]].
      destruct Hr as [[-> ->]|(j & Hj & ->)].
      * left; auto.
      * right. exists (S j); split; [exact Hj|lia].
Qed.

Lemma argmax_spec (row : list Q) :
  row <> [] ->
  (argmax row < length row)%nat /\
  Forall (fun x => x <= prob row (argmax row)) row.
Proof.
  destruct row as [|x l]; [congruence|intros _].
  unfold argmax. destruct (argmax_from_spec l 1 0 x) as (v & Hr & Hxv & Hf).
  destruct Hr as [[-> ->]|(j & Hj & ->)].
  - split; [simpl; lia|]. unfold prob; simpl. constructor; [apply Qle_refl|exact Hf].
  - assert (Hjl : (j < length l)%nat) by (apply nth_error_Some; congruence).
    split; [simpl; lia|].
    unfold prob. simpl. rewrite (nth_error_nth l j 0 Hj).
    constructor; [exact Hxv|exact Hf].
Qed.

Lemma prob_In (row : list Q) (j : nat) :
  (j < length row)%nat -> In (prob row j) row.
Proof. intros H. unfold prob. apply nth_In, H. Qed.

Lemma argmax_unique_max (row : list Q) (m : nat) :
  unique_max row m -> argmax row = m.
Proof.
  intros [Hm Hu].
  assert (Hne : row <> []) by (destruct row; simpl in Hm; [lia|discriminate]).
  destruct (argmax_spec row Hne) as [Hr Hf].
  destruct (Nat.eq_dec (argmax row) m) as [|Hneq]; auto.
  exfalso. specialize (Hu _ Hr Hneq).
  rewrite Forall_forall in Hf. specialize (Hf _ (prob_In row m Hm)). lra.
Qed.

Lemma top1_unique_max (row : list Q) (m : nat) :
  unique_max row m -> top_k_indices row 1 = [m].
Proof.
  intros [Hm Hu].
  pose proof (top_k_indices_sorted row (Z.of_nat (length row))) as Hs.
  assert (Hall : top_k_indices row (Z.of_nat (length row)) = rev (argsort row)).
  { unfold top_k_indices, py_take. destruct (Z.leb_spec 0 (Z.of_nat (length row))); [|lia].
    rewrite Nat2Z.id. apply firstn_all2. rewrite length_rev, argsort_length. lia. }
  rewrite Hall in Hs.
  assert (Hin : forall x, In x (rev (argsort row)) <-> (x < length row)%nat).
  { intros x. rewrite <- in_rev. split; intro H.
    - apply (Permutation_in _ (argsort_perm row)), in_seq in H. lia.
    - apply (Permutation_in _ (Permutation_sym (argsort_perm row))), in_seq. lia. }
  unfold top_k_indices. destruct (rev (argsort row)) as [|r0 rest] eqn:E.
  - exfalso. apply (proj2 (Hin m)) in Hm. destruct Hm.
  - unfold py_take. simpl.
    apply StronglySorted_inv in Hs as [_ Hhd].
    destruct (Nat.eq_dec r0 m) as [->|Hneq]; auto.
    exfalso.
    assert (Hr0 : (r0 < length row)%nat) by (apply Hin; left; auto).
    assert (Hmr : In m rest).
    { apply Hin in Hm. destruct Hm as [|Hm]; [congruence|exact Hm]. }
    rewrite Forall_forall in Hhd. specialize (Hhd _ Hmr).
    specialize (Hu _ Hr0 Hneq).
    unfold ranked_before, asc in Hhd. destruct Hhd as [H|[H _]]; lra.
Qed.

Lemma combine_map_r {A B C} (f : B -> C) (l1 : list A) (l2 : list B) :
  combine l1 (map f l2) = map (fun '(a, b) => (a, f b)) (combine l1 l2).
Proof.
  revert l2; induction l1 as [|a l1 IH]; intros [|b l2]; simpl; auto.
  rewrite IH; reflexivity.
Qed.

(** Whatever order [np.argsort] returns, a row whose maximum is attained
    at one class has that class as its top-1 entry. *)
Lemma top1_of_unique_max (row : list Q) (perm : list nat) (m : nat) :
  argsort_result row perm -> unique_max row m -> top_k_of perm 1 = [m].
Proof.
  intros Hr [Hm Hu].
  pose proof (argsort_result_desc row perm Hr) as Hs.
  assert (Hin : forall x, In x (rev perm) <-> (x < length row)%nat).
  { intros x. rewrite <- in_rev. apply argsort_result_In, Hr. }
  unfold top_k_of. destruct (rev perm) as [|r0 rest] eqn:E.
  - exfalso. apply (proj2 (Hin m)) in Hm. destruct Hm.
  - unfold py_take. simpl.
    apply StronglySorted_inv in Hs as [_ Hhd].
    destruct (Nat.eq_dec r0 m) as [->|Hneq]; auto.
    exfalso.
    assert (Hr0 : (r0 < length row)%nat) by (apply Hin; left; auto).
    assert (Hmr : In m rest).
    { apply Hin in Hm. destruct Hm as [|Hm]; [congruence|exact Hm]. }
    rewrite Forall_forall in Hhd. specialize (Hhd _ Hmr).
    specialize (Hu _ Hr0 Hneq). simpl in Hhd. lra.
Qed.

(** ** C6: top-1 accuracy *)

(** C6 (amended).  For a non-empty list of true labels and a matching
    probability matrix, [evaluate_topk] at [k = 1] is the fraction of
    examples whose true label equals [np.argmax] of its row.  When every
    row has its maximum at a single class, it is also the fraction of
    examples whose true label is in the extractor's top-1 list, for every
    index orders [perms] that [np.argsort] may return on the rows. *)
Theorem evaluate_top1_is_argmax_accuracy
    (y_true : list nat) (P : list (list Q)) (perms : list (list nat)) :
  y_true <> [] -> length y_true = length P ->
  Forall2 argsort_result P perms ->
  evaluate_topk_at y_true P 1 =
    fraction (map (fun '(t, row) => Nat.eqb t (argmax row)) (combine y_true P)) /\
  (Forall (fun row => exists m, unique_max row m) P ->
   evaluate_topk_at y_true P 1 =
     fraction (map (fun '(t, perm) => existsb (Nat.eqb t) (top_k_of perm 1))
                   (combine y_true perms))).
Proof.
  intros _ _ Hperms.
  assert (H1 : evaluate_topk_at y_true P 1 =
    fraction (map (fun '(t, row) => Nat.eqb t (argmax row)) (combine y_true P))).
  { unfold evaluate_topk_at, accuracy_score. simpl.
    rewrite combine_map_r, map_map. f_equal. apply map_ext. intros [t row]; reflexivity. }
  split; [exact H1|]. intros Hu. rewrite H1. f_equal.
  clear H1. revert y_true. induction Hperms as [|row perm P perms Hr Hps IH];
    intros [|t y_true]; simpl; auto.
  inversion Hu as [|? ? [m Hm] Hu']; subst.
  rewrite (IH Hu' y_true), (top1_of_unique_max row perm m Hr Hm),
    (argmax_unique_max row m Hm).
  simpl. destruct (Nat.eqb t m); reflexivity.
Qed.

Lemma evaluate_top1_is_argmax_accuracy_witness :
  argsort_result [1#10; 7#10; 2#10] [0%nat; 2%nat; 1%nat] /\
  unique_max [1#10; 7#10; 2#10] 1 /\
  evaluate_topk_at [1%nat] [[1#10; 7#10; 2#10]] 1 =
    fraction (map (fun '(t, row) => Nat.eqb t (argmax row)) (combine [1%nat] [[1#10; 7#10; 2#10]])) /\
  evaluate_topk_at [1%nat] [[1#10; 7#10; 2#10]] 1 =
    fraction (map (fun '(t, perm) => existsb (Nat.eqb t) (top_k_of perm 1))
                  (combine [1%nat] [[0%nat; 2%nat; 1%nat]])).
Proof.
  assert (Hr : argsort_result [1#10; 7#10; 2#10] [0%nat; 2%nat; 1%nat]).
  { split.
    - simpl. apply perm_skip, perm_swap.
    - repeat constructor; vm_compute; discriminate. }
  assert (Hu : unique_max [1#10; 7#10; 2#10] 1).
  { split; [simpl; lia|]. intros j Hj Hne.
    destruct j as [|[|[|j]]]; simpl in Hj; try lia; vm_compute; reflexivity. }
  destruct (evaluate_top1_is_argmax_accuracy [1%nat] [[1#10; 7#10; 2#10]]
              [[0%nat; 2%nat; 1%nat]]) as [H1 H2].
  - discriminate.
  - reflexivity.
  - constructor; [exact Hr|constructor].
  - split; [exact Hr|split; [exact Hu|split; [exact H1|]]].
    apply H2. constructor; [exists 1%nat; exact Hu|constructor].
Defined.

(** C6, counterexample: on the tied row [0.5, 0.5] with true label 0,
    top-1 accuracy is 1 ([np.argmax] picks index 0), while under the
    stable order [[0; 1]], which [np.argsort] returns for this short row,
    the extractor's top-1 list is [[1]] and the membership fraction is 0. *)
Lemma top1_tie_disagrees :
  argsort_result [1#2; 1#2] (argsort [1#2; 1#2]) /\
  argsort [1#2; 1#2] = [0%nat; 1%nat] /\
  evaluate_topk_at [0%nat] [[1#2; 1#2]] 1 == 1 /\
  fraction (map (fun '(t, perm) => existsb (Nat.eqb t) (top_k_of perm 1))
                (combine [0%nat] [argsort [1#2; 1#2]])) == 0.
Proof.
  split; [apply argsort_valid|].
  vm_compute. split; [reflexivity|split; reflexivity].
Qed.

(** The top-1 scenarios of the specification. *)
Example top1_scenarios :
  evaluate_topk_at [1%nat] [[1#10; 7#10; 2#10]] 1 == 1 /\
  evaluate_topk_at [0%nat] [[1#10; 7#10; 2#10]] 1 == 0 /\
  evaluate_topk_at [0%nat] [[1#10; 7#10; 2#10]] 3 == 1.
Proof. vm_compute. repeat split; reflexivity. Qed.

(** ** The label encoder *)

Lemma str_insert_perm (s : string) (l : list string) :
  Permutation (str_insert s l) (s :: l).
Proof.
  induction l as [|x l IH]; simpl; auto.
  destruct (String.leb s x); auto.
  rewrite IH. apply perm_swap.
Qed.

Lemma str_sort_perm (l : list string) : Permutation (str_sort l) l.
Proof.
  induction l as [|x l IH]; simpl; auto.
  rewrite str_insert_perm, IH. reflexivity.
Qed.

Lemma np_unique_NoDup (values : list string) : NoDup (np_unique values).
Proof.
  unfold np_unique. eapply Permutation_NoDup.
  - symmetry; apply str_sort_perm.
  - apply NoDup_nodup.
Qed.

Lemma np_unique_In (values : list string) (v : string) :
  In v (np_unique values) <-> In v values.
Proof.
  unfold np_unique. split; intros H.
  - apply (Permutation_in _ (str_sort_perm _)) in H. apply nodup_In in H. exact H.
  - apply (Permutation_in _ (Permutation_sym (str_sort_perm _))).
    apply nodup_In. exact H.
Qed.

Lemma str_index_nth (v : string) (l : list string) (i : nat) :
  str_index v l = Some i -> nth_error l i = Some v.
Proof.
  revert i; induction l as [|x l IH]; intros i; simpl; [discriminate|].
  destruct (String.eqb_spec x v) as [->|_].
  - intros [= <-]; reflexivity.
  - destruct (str_index v l) as [j|]; simpl; [|discriminate].
    intros [= <-]. apply IH; reflexivity.
Qed.

Lemma str_index_In (v : string) (l : list string) :
  In v l -> exists i, str_index v l = Some i.
Proof.
  induction l as [|x l IH]; simpl; [tauto|].
  destruct (String.eqb_spec x v) as [->|Hne].
  - intros _. exists 0%nat. reflexivity.
  - intros [?|Hin]; [contradiction|].
    destruct (IH Hin) as [i ->]. exists (S i). reflexivity.
Qed.

Lemma str_index_NoDup (v : string) (l : list string) (i : nat) :
  NoDup l -> nth_error l i = Some v -> str_index v l = Some i.
Proof.
  revert i; induction l as [|x l IH]; intros i Hnd Hi; [destruct i; discriminate|].
  apply NoDup_cons_iff in Hnd as [Hx Hnd]. simpl.
  destruct i as [|i]; simpl in Hi.
  - injection Hi as ->. rewrite String.eqb_refl. reflexivity.
  - destruct (String.eqb_spec x v) as [->|_].
    + exfalso. apply Hx. eapply nth_error_In; eauto.
    + rewrite (IH i Hnd Hi). reflexivity.
Qed.

Lemma encode_spec (le : LabelEncoder) (v : string) :
  encode le v = str_index v (classes_ le).
Proof.
  unfold encode; simpl. destruct (str_index v (classes_ le)); reflexivity.
Qed.

Lemma decode_spec (le : LabelEncoder) (i : nat) :
  decode le i = match nth_error (classes_ le) i with
                | Some v => Ok v
                | None => Raise ValueError
                end.
Proof.
  unfold decode; simpl. destruct (nth_error (classes_ le) i); reflexivity.
Qed.

Lemma le_transform_ok (le : LabelEncoder) (values : list string) :
  (forall v, In v values -> In v (classes_ le)) ->
  exists idxs, le_transform le values = Ok idxs /\
    Forall2 (fun v i => encode le v = Some i) values idxs.
Proof.
  induction values as [|v vs IH]; intros Hin; simpl.
  - exists []; split; [reflexivity|constructor].
  - destruct (str_index_In v (classes_ le) (Hin v (or_introl eq_refl))) as [i Hi].
    rewrite Hi.
    destruct IH as (idxs & Hok & Hf); [intros; apply Hin; right; auto|].
    rewrite Hok. exists (i :: idxs). split; [reflexivity|].
    constructor; [rewrite encode_spec; exact Hi|exact Hf].
Qed.

(** ** C7: fit, encode and decode *)

(** C7.  [LabelEncoder().fit(values)] gives [classes_] without duplicates
    holding exactly the values of the corpus; [fit_transform] never raises
    and encodes every value to its index; every corpus value is encoded to
    an index in [0..N-1] that [inverse_transform] maps back to it; and
    every index in [0..N-1] is the code of some corpus value (no gaps). *)
Theorem label_encoder_dense_roundtrip (values : list string) :
  let le := le_fit values in
  NoDup (classes_ le) /\
  (forall v, In v (classes_ le) <-> In v values) /\
  (exists idxs, le_fit_transform values = Ok idxs /\
     Forall2 (fun v i => encode le v = Some i) values idxs) /\
  (forall v, In v values ->
     exists i, encode le v = Some i /\ (i < length (classes_ le))%nat /\ decode le i = Ok v) /\
  (forall i, (i < length (classes_ le))%nat ->
     exists v, In v values /\ encode le v = Some i).
Proof.
  intros le.
  pose proof (np_unique_NoDup values) as Hnd.
  pose proof (np_unique_In values) as Hin.
  split; [exact Hnd|split; [exact Hin|split; [|split]]].
  - apply le_transform_ok. intros v Hv. apply Hin, Hv.
  - intros v Hv. apply Hin in Hv.
    destruct (str_index_In v _ Hv) as [i Hi].
    pose proof (str_index_nth _ _ _ Hi) as Hnth.
    exists i. split; [rewrite encode_spec; exact Hi|split].
    + apply nth_error_Some. simpl. rewrite Hnth. discriminate.
    + rewrite decode_spec. simpl. rewrite Hnth. reflexivity.
  - intros i Hi.
    destruct (nth_error (classes_ le) i) as [v|] eqn:E;
      [|apply nth_error_None in E; lia].
    exists v. split.
    + apply Hin. eapply nth_error_In; eauto.
    + rewrite encode_spec. apply str_index_NoDup; auto.
Qed.

(** The encoder scenario of the specification: [LabelEncoder] assigns
    indices in lexical order. *)
Example encoder_scenario :
  let le := le_fit ["US"; "DE"; "FR"]%string in
  encode le "DE"%string = Some 0%nat /\ encode le "FR"%string = Some 1%nat /\
  encode le "US"%string = Some 2%nat /\ encode le "JP"%string = None /\
  decode le 1 = Ok "FR"%string.
Proof. vm_compute. repeat split. Qed.

(** ** Row-local features on the three paths *)

Lemma length_nodup_le {A} (d : forall x y : A, {x = y} + {x <> y}) (l : list A) :
  (length (nodup d l) <= length l)%nat.
Proof.
  induction l as [|x l IH]; simpl; [lia|].
  destruct (in_dec d x l); simpl; lia.
Qed.

Lemma nunique3_bounds (a b c : string) :
  (1 <= nunique [a; b; c] <= 3)%nat.
Proof.
  unfold nunique. split.
  - assert (Hin : In c (nodup string_dec [a; b; c])) by (apply nodup_In; simpl; auto).
    destruct (nodup string_dec [a; b; c]); [destruct Hin|simpl; lia].
  - apply (length_nodup_le string_dec [a; b; c]).
Qed.

(** C1.  The serving transform of backend/main.py, documented as a
    replica of the training transform, diverges from it: on the
    observation built from [sample_request] the training transform (and
    its copy in predict_guard.py, which agrees with it on every row) gives
    [bw_ratio_guard_middle = 8.5 / (7 + 1) = 17/16] and
    [country_diversity = 3], the backend [8.5 / (7 + 1e-6)] and [1]. *)
Theorem feature_parity_backend_diverges :
  (forall c, predict_guard_row_features c = train_row_features c) /\
  let c := backend_circuit sample_request in
  bw_ratio_guard_middle (train_row_features c) == 17 # 16 /\
  bw_ratio_guard_middle (backend_row_features c) == 8500000 # 7000001 /\
  ~ (bw_ratio_guard_middle (train_row_features c) ==
     bw_ratio_guard_middle (backend_row_features c)) /\
  country_diversity (train_row_features c) == 3 /\
  country_diversity (backend_row_features c) == 1.
Proof.
  split; [reflexivity|].
  vm_compute. repeat split; try reflexivity. discriminate.
Qed.

(** C4.  On every row the training transform and its predict_guard.py
    copy set [country_diversity] to the number of distinct countries (1, 2
    or 3), while the backend divides that number by 3; on
    [sample_training_circuit] (US, DE, FR) training yields 3, not 1. *)
Theorem country_diversity_by_path (c : circuit) :
  let n := nunique [guard_country c; middle_country c; exit_country c] in
  (1 <= n <= 3)%nat /\
  country_diversity (train_row_features c) == Q_of_nat n /\
  country_diversity (predict_guard_row_features c) == Q_of_nat n /\
  country_diversity (backend_row_features c) == Q_of_nat n / 3 /\
  country_diversity (train_row_features sample_training_circuit) == 3 /\
  ~ (country_diversity (train_row_features sample_training_circuit) ==
     Q_of_nat (nunique ["US"; "DE"; "FR"]%string) / 3).
Proof.
  intros n. split; [apply nunique3_bounds|].
  split; [reflexivity|split; [reflexivity|split; [reflexivity|]]].
  vm_compute. split; [reflexivity|discriminate].
Qed.

(** ** Encoding unseen categorical values *)

Lemma str_index_not_In (v : string) (l : list string) :
  ~ In v l -> str_index v l = None.
Proof.
  induction l as [|x l IH]; simpl; intros Hn; auto.
  destruct (String.eqb_spec x v) as [->|_]; [exfalso; auto|].
  rewrite IH; auto.
Qed.

(** C3.  The backend's encoding never raises and maps a value unseen by
    the column's encoder (or a missing encoder) to -1, but the inference
    path of predict_guard.py calls [transform] without a fallback: on
    [sample_unseen_circuit], whose exit country [JP] was never fitted,
    [predict_top_k_guards], called on a frame with the columns of the
    engineered CSV as its [__main__] does, raises [ValueError] whatever the
    feature columns, while the backend encodes the same value to -1. *)
Theorem unseen_value_sentinel_only_in_backend :
  (forall encs col v,
     (forall le, lookup_encoder encs col = Some le -> ~ In v (classes_ le)) ->
     encode_or_sentinel encs col v = (-1)%Z) /\
  (forall feature_cols,
     predict_top_k_guards (engineered_columns raw_fieldnames) [sample_unseen_circuit]
       sample_model sample_encoders feature_cols 2 = Raise ValueError) /\
  encode_or_sentinel sample_encoders "exit_country"%string
    (exit_country sample_unseen_circuit) = (-1)%Z.
Proof.
  split.
  - intros encs col v Hn. unfold encode_or_sentinel, get_encoder.
    destruct (lookup_encoder encs col) as [le|] eqn:E; [|reflexivity].
    simpl. rewrite (str_index_not_In v (classes_ le) (Hn le eq_refl)). reflexivity.
  - split; [intros feature_cols|]; vm_compute; reflexivity.
Qed.

Lemma unseen_value_sentinel_only_in_backend_witness :
  (~ In "JP"%string (classes_ (le_fit ["DE"; "US"]%string)) /\
   encode_or_sentinel sample_encoders "exit_country"%string "JP"%string = (-1)%Z) /\
  predict_top_k_guards (engineered_columns raw_fieldnames) [sample_unseen_circuit]
    sample_model sample_encoders (feature_cols_of (engineered_columns raw_fieldnames)) 2
    = Raise ValueError.
Proof.
  destruct unseen_value_sentinel_only_in_backend as [Hgen [Hraise _]].
  assert (Hn : ~ In "JP"%string (classes_ (le_fit ["DE"; "US"]%string))).
  { vm_compute. intros [H|[H|[]]]; discriminate. }
  split; [split; [exact Hn|]|exact (Hraise _)].
  apply Hgen. intros le Hle. vm_compute in Hle. injection Hle as <-. exact Hn.
Defined.

(** ** The [k] of [predict_top_k_guards] *)

Lemma existsb_eqb_str (w : string) (l : list string) : existsb (String.eqb w) l = true <-> In w l.
Proof.
  rewrite existsb_exists. split.
  - intros (x & Hx & E). apply String.eqb_eq in E. subst; exact Hx.
  - intros H. exists w. split; [exact H|apply String.eqb_refl].
Qed.

Lemma In_df_assign_all (cols names : list string) (w : string) :
  In w (df_assign_all cols names) <-> In w cols \/ In w names.
Proof.
  unfold df_assign_all. revert cols; induction names as [|n names IH]; intros cols; simpl.
  - tauto.
  - rewrite IH. unfold df_assign.
    destruct (existsb (String.eqb n) cols) eqn:E.
    + apply existsb_eqb_str in E. split; [tauto|].
      intros [H|[<-|H]]; auto.
    + rewrite in_app_iff. simpl. split; intros; tauto.
Qed.

Lemma df_select_Ok (columns wanted : list string) :
  df_select columns wanted = Ok wanted <-> forall w, In w wanted -> In w columns.
Proof.
  unfold df_select.
  destruct (forallb (fun w => existsb (String.eqb w) columns) wanted) eqn:E.
  - rewrite forallb_forall in E. split; [|reflexivity].
    intros _ w Hw. apply (proj1 (existsb_eqb_str w columns)), E, Hw.
  - split; [intros HH; discriminate HH|]. intros H. exfalso.
    apply Bool.not_true_iff_false in E. apply E. apply forallb_forall.
    intros w Hw. apply (proj2 (existsb_eqb_str w columns)), H, Hw.
Qed.

Lemma df_select_not_Ok (columns wanted : list string) :
  df_select columns wanted <> Ok wanted -> df_select columns wanted = Raise KeyError.
Proof.
  unfold df_select. destruct (forallb _ _); [intros H; contradiction|reflexivity].
Qed.


Lemma In_firstn_In {A} (n : nat) (l : list A) (x : A) :
  In x (firstn n l) -> In x l.
Proof.
  intros H. rewrite <- (firstn_skipn n l). apply in_or_app. left; exact H.
Qed.

Lemma top_k_indices_in_range (p : list Q) (k : Z) (x : nat) :
  In x (top_k_indices p k) -> (x < length p)%nat.
Proof.
  unfold top_k_indices. destruct (py_take_firstn (rev (argsort p)) k) as [n ->].
  intros H. apply In_firstn_In, in_rev in H.
  apply (Permutation_in _ (argsort_perm p)), in_seq in H. lia.
Qed.








(** ** Explainability *)

Lemma collect_importance_pos (cols : list string) (i : nat)
    (get_score : nat -> option Q) (feature_value : string -> Q) :
  Forall (fun f => 0 < ri_importance f) (collect_importance cols i get_score feature_value).
Proof.
  revert i; induction cols as [|col cols IH]; intros i; simpl; [constructor|].
  destruct (Qltb 0 _) eqn:E; [|apply IH].
  constructor; [|apply IH]. simpl.
  unfold Qltb in E. apply Qnot_le_lt. intros H. apply Qle_bool_iff in H.
  rewrite H in E. discriminate.
Qed.

Lemma ins_desc_perm (x : raw_importance) (l : list raw_importance) :
  Permutation (ins_desc x l) (x :: l).
Proof.
  induction l as [|y l IH]; simpl; auto.
  destruct (Qle_bool (ri_importance x) (ri_importance y)); auto.
  rewrite IH. apply perm_swap.
Qed.

Lemma sort_desc_perm (l : list raw_importance) : Permutation (sort_desc l) l.
Proof.
  unfold sort_desc.
  assert (H : forall acc, Permutation (fold_left (fun acc x => ins_desc x acc) l acc) (l ++ acc)).
  { induction l as [|a l IH]; intros acc; simpl; auto.
    rewrite IH, ins_desc_perm. symmetry. apply Permutation_middle. }
  rewrite H, app_nil_r. reflexivity.
Qed.

Lemma ins_desc_sorted (x : raw_importance) (l : list raw_importance) :
  Sorted not_below l -> Sorted not_below (ins_desc x l).
Proof.
  induction l as [|y l IH]; simpl; intros Hs.
  - repeat constructor.
  - apply Sorted_inv in Hs as [Hs Hh].
    destruct (Qle_bool (ri_importance x) (ri_importance y)) eqn:E.
    + constructor; [apply IH; exact Hs|].
      apply Qle_bool_iff in E.
      destruct l as [|z l]; simpl.
      * constructor; exact E.
      * destruct (Qle_bool (ri_importance x) (ri_importance z)); constructor.
        -- apply HdRel_inv in Hh; exact Hh.
        -- exact E.
    + constructor; [constructor; auto|]. constructor.
      unfold not_below. apply Qlt_le_weak, Qnot_le_lt. intros H.
      apply Qle_bool_iff in H. congruence.
Qed.

Lemma sort_desc_sorted (l : list raw_importance) : StronglySorted not_below (sort_desc l).
Proof.
  apply Sorted_StronglySorted.
  { intros a b c H1 H2. unfold not_below in *. lra. }
  unfold sort_desc.
  assert (H : forall acc, Sorted not_below acc ->
                Sorted not_below (fold_left (fun acc x => ins_desc x acc) l acc)).
  { induction l as [|a l IH]; intros acc Hacc; simpl; auto.
    apply IH, ins_desc_sorted, Hacc. }
  apply H. constructor.
Qed.

Lemma py_max_first (x : Q) (l : list Q) :
  Forall (fun y => y <= x) l -> py_max x l = x.
Proof.
  unfold py_max. induction l as [|y l IH]; simpl; intros Hf; auto.
  inversion Hf as [|? ? Hy Hf']; subst.
  unfold Qltb. apply Qle_bool_iff in Hy. rewrite Hy. simpl. apply IH, Hf'.
Qed.

(** C10.  In the explainability output every returned normalized
    importance lies in (0, 1], and the first returned feature, whose raw
    importance is the maximum over the selected top-N, has normalized
    importance exactly 1 and impact bucket [high]. *)
Theorem feature_importance_normalized (feature_columns : list string)
    (get_score : nat -> option Q) (feature_value : string -> Q) (top_n : Z) :
  let res := get_feature_importance feature_columns get_score feature_value top_n in
  Forall (fun r => 0 < fi_importance r <= 1) res /\
  (forall r rest, res = r :: rest -> fi_importance r == 1 /\ fi_impact r = high).
Proof.
  intros res.
  set (sorted := sort_desc (collect_importance feature_columns 0 get_score feature_value)).
  assert (Hpos : Forall (fun f => 0 < ri_importance f) sorted).
  { eapply Permutation_Forall; [symmetry; apply sort_desc_perm|].
    apply collect_importance_pos. }
  assert (Hss : StronglySorted not_below sorted) by apply sort_desc_sorted.
  destruct (py_take_firstn sorted top_n) as [n Htake].
  assert (Htop_pos : Forall (fun f => 0 < ri_importance f) (py_take sorted top_n)).
  { rewrite Htake, Forall_forall. intros f Hf. rewrite Forall_forall in Hpos.
    apply Hpos. eapply In_firstn_In; eauto. }
  assert (Htop_sorted : StronglySorted not_below (py_take sorted top_n)).
  { rewrite Htake. apply StronglySorted_firstn, Hss. }
  unfold res, get_feature_importance. fold sorted.
  destruct (py_take sorted top_n) as [|f0 fs] eqn:Etop.
  - split; [constructor|intros r rest H; discriminate].
  - apply StronglySorted_inv in Htop_sorted as [_ Hhd].
    inversion Htop_pos as [|? ? Hf0 Hfs]; subst.
    rewrite py_max_first.
    2:{ apply Forall_map. eapply Forall_impl; [|exact Hhd]. intros a Ha. exact Ha. }
    split.
    + constructor.
      * simpl. split.
        -- apply Qlt_shift_div_l; lra.
        -- apply Qle_shift_div_r; lra.
      * apply Forall_map. rewrite Forall_forall in Hhd, Hfs |- *.
        intros f Hf. specialize (Hhd f Hf). specialize (Hfs f Hf).
        unfold not_below in Hhd. simpl. split.
        -- apply Qlt_shift_div_l; lra.
        -- apply Qle_shift_div_r; lra.
    + intros r rest Hr. injection Hr as <- _. simpl.
      assert (H1 : ri_importance f0 / ri_importance f0 == 1) by (field; lra).
      split; [exact H1|].
      unfold impact_of, Qltb.
      destruct (Qle_bool (ri_importance f0 / ri_importance f0) (7 # 10)) eqn:E.
      * apply Qle_bool_iff in E. lra.
      * reflexivity.
Qed.

Lemma feature_importance_normalized_witness :
  let res := get_feature_importance ["bw_total"; "exit_country_encoded"; "bw_min"]%string
               (fun i => match i with 0%nat => Some 12 | 1%nat => Some 3 | _ => None end)
               (fun _ => 0) 5 in
  Forall (fun r => 0 < fi_importance r <= 1) res /\
  (forall r rest, res = r :: rest -> fi_importance r == 1 /\ fi_impact r = high).
Proof.
  exact (feature_importance_normalized ["bw_total"; "exit_country_encoded"; "bw_min"]%string
           (fun i => match i with 0%nat => Some 12 | 1%nat => Some 3 | _ => None end)
           (fun _ => 0) 5).
Defined.

(* ================================================================== *)
(** * Further properties of the pipeline *)

(** ** Ranking metrics: helpers *)

Lemma firstn_prefix {A} (n n' : nat) (l : list A) :
  (n <= n')%nat -> firstn n' l = firstn n l ++ skipn n (firstn n' l).
Proof.
  intros H. rewrite <- (firstn_skipn n (firstn n' l)) at 1.
  rewrite firstn_firstn, Nat.min_l by exact H. reflexivity.
Qed.

Lemma top_k_indices_prefix (row : list Q) (k k' : Z) :
  (0 <= k <= k')%Z ->
  exists rest, top_k_indices row k' = top_k_indices row k ++ rest.
Proof.
  intros Hk. unfold top_k_indices, py_take.
  destruct (Z.leb_spec 0 k) as [_|]; [|lia].
  destruct (Z.leb_spec 0 k') as [_|]; [|lia].
  eexists. apply firstn_prefix. apply Z2Nat.inj_le; lia.
Qed.

Lemma count_true_mono (h1 h2 : list bool) :
  Forall2 (fun a b => a = true -> b = true) h1 h2 -> (count_true h1 <= count_true h2)%nat.
Proof.
  induction 1 as [|a b h1 h2 Hab _ IH]; [simpl; lia|].
  unfold count_true in *; simpl.
  destruct a, b; simpl; try lia; discriminate (Hab eq_refl).
Qed.

Lemma Q_of_nat_le (a b : nat) : (a <= b)%nat -> Q_of_nat a <= Q_of_nat b.
Proof. intros H. unfold Q_of_nat. rewrite <- Zle_Qle. lia. Qed.

Lemma Q_of_nat_pos (n : nat) : (0 < n)%nat -> 0 < Q_of_nat n.
Proof. intros H. unfold Q_of_nat. change 0 with (inject_Z 0). rewrite <- Zlt_Qlt. lia. Qed.

Lemma fraction_mono (h1 h2 : list bool) :
  Forall2 (fun a b => a = true -> b = true) h1 h2 -> fraction h1 <= fraction h2.
Proof.
  intros H. unfold fraction, Qdiv. rewrite (Forall2_length H).
  apply Qmult_le_compat_r.
  - apply Q_of_nat_le, count_true_mono, H.
  - apply Qinv_le_0_compat, Q_of_nat_nonneg.
Qed.

Lemma Forall2_map_same {A B C} (R : B -> C -> Prop) (f : A -> B) (g : A -> C) (l : list A) :
  (forall x, In x l -> R (f x) (g x)) -> Forall2 R (map f l) (map g l).
Proof. induction l as [|a l IH]; simpl; intros H; constructor; auto. Qed.

Lemma index_of_app (x : nat) (l r : list nat) (p : nat) :
  index_of x l = Some p -> index_of x (l ++ r) = Some p.
Proof.
  revert p; induction l as [|y l IH]; intros p; simpl; [discriminate|].
  destruct (Nat.eqb y x); [auto|].
  destruct (index_of x l) as [q|] eqn:E; simpl; [|discriminate].
  intros [= <-]. rewrite (IH q eq_refl). reflexivity.
Qed.

Lemma Qsum_mono {A} (f g : A -> Q) (l : list A) :
  (forall x, In x l -> f x <= g x) -> Qsum (map f l) <= Qsum (map g l).
Proof.
  induction l as [|a l IH]; simpl; intros H; [apply Qle_refl|].
  apply Qplus_le_compat; [apply H; auto|apply IH; auto].
Qed.

Lemma evaluate_top1_eq (y_true : list nat) (P : list (list Q)) :
  evaluate_topk_at y_true P 1 =
    fraction (map (fun '(t, row) => Nat.eqb t (argmax row)) (combine y_true P)).
Proof.
  unfold evaluate_topk_at, accuracy_score. simpl.
  rewrite combine_map_r, map_map. f_equal. apply map_ext. intros [t row]; reflexivity.
Qed.

Lemma mrr_loop_short (P : list (list Q)) (k : Z) (ys : list nat) (i : nat) (acc : Q) :
  (i <= length P)%nat -> (length P < i + length ys)%nat ->
  mrr_loop P ys i k acc = Raise IndexError.
Proof.
  revert i acc; induction ys as [|t ys IH]; intros i acc Hi Hlt; simpl in *; [lia|].
  destruct (nth_error P i) as [row|] eqn:E; [|reflexivity].
  apply IH; [|lia]. apply nth_error_Some. congruence.
Qed.

Lemma mrr_loop_extra (P extra : list (list Q)) (k : Z) (ys : list nat) (i : nat) (acc : Q) :
  (i + length ys <= length P)%nat ->
  mrr_loop (P ++ extra) ys i k acc = mrr_loop P ys i k acc.
Proof.
  revert i acc; induction ys as [|t ys IH]; intros i acc Hlen; simpl in *; [reflexivity|].
  rewrite nth_error_app1 by lia.
  destruct (nth_error P i); [apply IH; lia|reflexivity].
Qed.

Lemma reciprocal_rank_mono (row : list Q) (t : nat) (k k' : Z) :
  (0 <= k <= k')%Z -> reciprocal_rank row t k <= reciprocal_rank row t k'.
Proof.
  intros Hk. destruct (top_k_indices_prefix row k k' Hk) as [rest Hr].
  unfold reciprocal_rank at 1.
  destruct (index_of t (top_k_indices row k)) as [pos|] eqn:E.
  - unfold reciprocal_rank. rewrite Hr, (index_of_app _ _ _ _ E). apply Qle_refl.
  - apply reciprocal_rank_bounds.
Qed.

Lemma Q_div_mono (a b n : Q) : 0 <= n -> a <= b -> a / n <= b / n.
Proof.
  intros Hn H. unfold Qdiv. apply Qmult_le_compat_r; [exact H|apply Qinv_le_0_compat, Hn].
Qed.

(** ** Top-K accuracy and MRR *)

(** X3.  On probability rows whose maximum is attained at a single class,
    the Top-1 entry of [evaluate_topk] (argmax accuracy) never exceeds the
    entry of any [k >= 1]; with tied maxima it can: on four equal
    probabilities with true class 0, Top-1 is 1 and Top-3 is 0. *)
Theorem evaluate_top1_le_topk (y_true : list nat) (P : list (list Q)) (k : Z) :
  (1 <= k)%Z -> Forall (fun row => exists m, unique_max row m) P ->
  evaluate_topk_at y_true P 1 <= evaluate_topk_at y_true P k /\
  evaluate_topk_at [0%nat] [[1#4; 1#4; 1#4; 1#4]] 1 == 1 /\
  evaluate_topk_at [0%nat] [[1#4; 1#4; 1#4; 1#4]] 3 == 0.
Proof.
  intros Hk Hu. split; [|vm_compute; split; reflexivity].
  destruct (Z.eqb_spec k 1) as [->|Hne]; [apply Qle_refl|].
  rewrite evaluate_top1_eq. unfold evaluate_topk_at.
  apply Z.eqb_neq in Hne. rewrite Hne.
  unfold top_k_accuracy_score. apply fraction_mono, Forall2_map_same.
  intros [t row] Hin. apply in_combine_r in Hin.
  rewrite Forall_forall in Hu. destruct (Hu row Hin) as [m Hm].
  rewrite (argmax_unique_max row m Hm). intros E. apply Nat.eqb_eq in E. subst t.
  destruct (top_k_indices_prefix row 1 k ltac:(lia)) as [rest ->].
  rewrite (top1_unique_max row m Hm). simpl. rewrite Nat.eqb_refl. reflexivity.
Qed.

Lemma evaluate_top1_le_topk_witness :
  evaluate_topk_at [1%nat] [[1#10; 7#10; 2#10]] 1 <=
    evaluate_topk_at [1%nat] [[1#10; 7#10; 2#10]] 3.
Proof.
  apply (evaluate_top1_le_topk [1%nat] [[1#10; 7#10; 2#10]] 3); [lia|].
  constructor; [|constructor]. exists 1%nat. split; [simpl; lia|].
  intros j Hj Hne. destruct j as [|[|[|j]]]; simpl in Hj; try lia; vm_compute; reflexivity.
Defined.

(** X5.  MRR@k is non-decreasing in [k]: raising the cut-off never moves a
    true label already in the list and can only add labels. *)
Theorem calculate_mrr_monotone_in_k (y_true : list nat) (P : list (list Q)) (k k' : Z) :
  (0 <= k <= k')%Z -> y_true <> [] -> length P = length y_true ->
  exists m m', calculate_mrr y_true P k = Ok m /\ calculate_mrr y_true P k' = Ok m' /\ m <= m'.
Proof.
  intros Hk Hne Hlen.
  destruct (calculate_mrr_defined y_true P k Hne Hlen) as (m & Hm & Heq).
  destruct (calculate_mrr_defined y_true P k' Hne Hlen) as (m' & Hm' & Heq').
  exists m, m'. split; [exact Hm|split; [exact Hm'|]].
  rewrite Heq, Heq'. apply Q_div_mono; [apply Q_of_nat_nonneg|].
  apply Qplus_le_compat; [apply Qle_refl|]. apply Qsum_mono.
  intros [i t] _. apply reciprocal_rank_mono, Hk.
Qed.

Lemma calculate_mrr_monotone_in_k_witness :
  exists m m', calculate_mrr [0%nat] [[1#10; 7#10; 2#10]] 1 = Ok m /\
    calculate_mrr [0%nat] [[1#10; 7#10; 2#10]] 3 = Ok m' /\ m <= m'.
Proof.
  apply (calculate_mrr_monotone_in_k [0%nat] [[1#10; 7#10; 2#10]] 1 3);
    [lia|discriminate|reflexivity].
Defined.

(** X6.  [calculate_mrr] reads [y_pred_proba[i]] for every label: with
    fewer probability rows than labels it raises [IndexError], and rows
    beyond the last label are never read. *)
Theorem calculate_mrr_rows (y_true : list nat) (P : list (list Q)) (k : Z) :
  ((length P < length y_true)%nat -> calculate_mrr y_true P k = Raise IndexError) /\
  (forall extra, (length y_true <= length P)%nat ->
     calculate_mrr y_true (P ++ extra) k = calculate_mrr y_true P k).
Proof.
  split.
  - intros Hlt. unfold calculate_mrr.
    rewrite (mrr_loop_short P k y_true 0 0) by (simpl; lia). reflexivity.
  - intros extra Hle. unfold calculate_mrr.
    rewrite (mrr_loop_extra P extra k y_true 0 0) by (simpl; lia). reflexivity.
Qed.

Lemma calculate_mrr_rows_witness :
  calculate_mrr [0%nat; 1%nat] [[1#2; 1#2]] 1 = Raise IndexError /\
  calculate_mrr [0%nat] ([[1#2; 1#2]] ++ [[1#3; 2#3]]) 1 = calculate_mrr [0%nat] [[1#2; 1#2]] 1.
Proof.
  destruct (calculate_mrr_rows [0%nat; 1%nat] [[1#2; 1#2]] 1) as [H1 _].
  destruct (calculate_mrr_rows [0%nat] [[1#2; 1#2]] 1) as [_ H2].
  split; [apply H1; simpl; lia|apply H2; simpl; lia].
Defined.

(** ** Backend ranking and explainability: helpers *)

Lemma build_predictions_ok (fps : list string) (p0 : list Q) (idxs : list nat) (rank : nat) :
  Forall (fun i => (i < length fps)%nat) idxs ->
  exists preds, build_predictions fps p0 idxs rank = Ok preds /\
    map gp_rank preds = seq rank (length idxs) /\
    map gp_guard_fingerprint preds = map (fun i => nth i fps EmptyString) idxs /\
    map gp_confidence preds = map (prob p0) idxs.
Proof.
  revert rank; induction idxs as [|i idxs IH]; intros rank Hf; simpl.
  - exists []. repeat split.
  - inversion Hf as [|? ? Hi Hf']; subst.
    destruct (nth_error fps i) as [fp|] eqn:E.
    2:{ apply nth_error_None in E. lia. }
    destruct (IH (S rank) Hf') as (preds & -> & H1 & H2 & H3). simpl.
    eexists. split; [reflexivity|]. simpl.
    rewrite H1, H2, H3. rewrite (nth_error_nth _ _ _ E). repeat split.
Qed.

Lemma build_predictions_raise (fps : list string) (p0 : list Q) (idxs : list nat) (rank : nat) :
  Exists (fun i => (length fps <= i)%nat) idxs ->
  build_predictions fps p0 idxs rank = Raise IndexError.
Proof.
  revert rank; induction idxs as [|i idxs IH]; intros rank Hex; simpl.
  - inversion Hex.
  - destruct (nth_error fps i) as [fp|] eqn:E; [|reflexivity].
    inversion Hex as [? ? Hi|? ? Hex']; subst.
    + assert (nth_error fps i <> None) by congruence.
      apply nth_error_Some in H. lia.
    + rewrite (IH (S rank) Hex'). reflexivity.
Qed.

Lemma StronglySorted_map {A B} (R : A -> A -> Prop) (S : B -> B -> Prop) (f : A -> B) (l : list A) :
  (forall a b, R a b -> S (f a) (f b)) -> StronglySorted R l -> StronglySorted S (map f l).
Proof.
  intros HRS. induction 1 as [|a l _ IH Ha]; simpl; constructor; [exact IH|].
  apply Forall_map. eapply Forall_impl; [|exact Ha]. intros b Hb. apply HRS, Hb.
Qed.

Lemma In_combine_seq_nth {A} (l : list A) (i j : nat) (c : A) :
  In (j, c) (combine (seq i (length l)) l) -> nth_error l (j - i) = Some c /\ (i <= j)%nat.
Proof.
  revert i; induction l as [|a l IH]; intros i Hin; simpl in Hin; [contradiction|].
  destruct Hin as [[= <- <-]|Hin].
  - rewrite Nat.sub_diag. split; [reflexivity|lia].
  - destruct (IH (S i) Hin) as [H1 H2].
    replace (j - i)%nat with (S (j - S i)) by lia. split; [exact H1|lia].
Qed.

Lemma collect_importance_spec (cols : list string) (i : nat)
    (get_score : nat -> option Q) (feature_value : string -> Q) :
  map (fun r => (ri_feature r, ri_importance r, ri_value r))
      (collect_importance cols i get_score feature_value) =
  map (fun '(j, c) => (c, score_of get_score j, feature_value c))
      (filter (fun '(j, c) => Qltb 0 (score_of get_score j)) (combine (seq i (length cols)) cols)).
Proof.
  revert i; induction cols as [|c cols IH]; intros i; simpl; [reflexivity|].
  unfold score_of at 1 3. destruct (Qltb 0 _); simpl; rewrite IH; reflexivity.
Qed.

Lemma Qltb_true (a b : Q) : Qltb a b = true <-> a < b.
Proof.
  unfold Qltb. rewrite negb_true_iff. split.
  - intros H. apply Qnot_le_lt. intros H'. apply Qle_bool_iff in H'. congruence.
  - intros H. destruct (Qle_bool b a) eqn:E; [|reflexivity].
    apply Qle_bool_iff in E. lra.
Qed.

Lemma Qltb_false (a b : Q) : Qltb a b = false <-> b <= a.
Proof.
  unfold Qltb. rewrite negb_false_iff. apply Qle_bool_iff.
Qed.

Lemma impact_of_mono (x y : Q) :
  x <= y -> (impact_of x = high -> impact_of y = high) /\
            (impact_of x = medium -> impact_of y <> low).
Proof.
  intros Hxy. unfold impact_of.
  destruct (Qltb (7 # 10) x) eqn:E1; destruct (Qltb (7 # 10) y) eqn:E2;
  destruct (Qltb (4 # 10) x) eqn:E3; destruct (Qltb (4 # 10) y) eqn:E4;
  try apply Qltb_true in E1; try apply Qltb_false in E1;
  try apply Qltb_true in E2; try apply Qltb_false in E2;
  try apply Qltb_true in E3; try apply Qltb_false in E3;
  try apply Qltb_true in E4; try apply Qltb_false in E4;
  split; intros H; try discriminate; try lra; reflexivity.
Qed.

(** ** Backend ranking and explainability *)

(** X7.  [get_top_k_predictions] for [k >= 1] with at least as many
    guard fingerprints as classes returns [min(k, number of classes)]
    predictions ranked 1, 2, ..., each carrying the fingerprint and
    probability of its class, with non-increasing confidences; when there
    are fewer fingerprints than classes and [k] covers every class it
    raises [IndexError]. *)
Theorem get_top_k_predictions_shape (fps : list string) (p0 : list Q)
    (rest : list (list Q)) (k : Z) :
  (1 <= k)%Z ->
  ((length p0 <= length fps)%nat ->
   exists preds, get_top_k_predictions fps (p0 :: rest) k = Ok preds /\
     length preds = Nat.min (Z.to_nat k) (length p0) /\
     map gp_rank preds = seq 1 (length preds) /\
     map gp_guard_fingerprint preds = map (fun i => nth i fps EmptyString) (top_k_indices p0 k) /\
     map gp_confidence preds = map (prob p0) (top_k_indices p0 k) /\
     StronglySorted (fun a b => b <= a) (map gp_confidence preds)) /\
  ((length fps < length p0)%nat -> (Z.of_nat (length p0) <= k)%Z ->
   get_top_k_predictions fps (p0 :: rest) k = Raise IndexError).
Proof.
  intros Hk.
  assert (Hlen : length (top_k_indices p0 k) = Nat.min (Z.to_nat k) (length p0)).
  { unfold top_k_indices. rewrite py_take_length_nonneg by lia.
    rewrite length_rev, argsort_length. reflexivity. }
  split.
  - intros Hfp. simpl.
    destruct (build_predictions_ok fps p0 (top_k_indices p0 k) 1) as (preds & Hok & H1 & H2 & H3).
    { rewrite Forall_forall. intros i Hi. apply top_k_indices_in_range in Hi. lia. }
    assert (Hl : length preds = length (top_k_indices p0 k)).
    { rewrite <- (length_map gp_rank), H1. apply length_seq. }
    exists preds. split; [exact Hok|]. split; [lia|].
    split; [rewrite H1, Hl; reflexivity|]. split; [exact H2|]. split; [exact H3|].
    rewrite H3. eapply StronglySorted_map; [|apply top_k_indices_sorted].
    intros a b [Hab|[Hab _]]; lra.
  - intros Hlt Hk'. simpl. apply build_predictions_raise.
    apply Exists_exists. exists (length fps). split; [|lia].
    unfold top_k_indices, py_take. destruct (Z.leb_spec 0 k) as [_|]; [|lia].
    rewrite firstn_all2 by (rewrite length_rev, argsort_length; lia).
    apply in_rev. rewrite rev_involutive.
    apply (Permutation_in _ (Permutation_sym (argsort_perm p0))), in_seq. lia.
Qed.

Lemma get_top_k_predictions_shape_witness :
  exists preds,
    get_top_k_predictions ["A"%string; "B"%string; "C"%string] [[1#10; 7#10; 2#10]] 2 = Ok preds /\
    length preds = Nat.min (Z.to_nat 2) 3 /\
    map gp_rank preds = seq 1 (length preds) /\
    map gp_guard_fingerprint preds =
      map (fun i => nth i ["A"%string; "B"%string; "C"%string] EmptyString)
          (top_k_indices [1#10; 7#10; 2#10] 2) /\
    map gp_confidence preds = map (prob [1#10; 7#10; 2#10]) (top_k_indices [1#10; 7#10; 2#10] 2) /\
    StronglySorted (fun a b => b <= a) (map gp_confidence preds).
Proof.
  destruct (get_top_k_predictions_shape ["A"%string; "B"%string; "C"%string]
              [1#10; 7#10; 2#10] [] 2 ltac:(lia)) as [H _].
  apply H. simpl. lia.
Defined.

(** X8.  For [top_n >= 0], [get_feature_importance] reports
    [min(top_n, number of positive-score columns)] features; each reported
    feature is the column at some index [i] whose booster score [f{i}] is
    present and positive, reported with its own value. *)
Theorem get_feature_importance_selection (feature_columns : list string)
    (get_score : nat -> option Q) (feature_value : string -> Q) (top_n : Z) :
  (0 <= top_n)%Z ->
  let res := get_feature_importance feature_columns get_score feature_value top_n in
  length res = Nat.min (Z.to_nat top_n)
    (length (filter (fun i => Qltb 0 (match get_score i with Some x => x | None => 0 end))
                    (seq 0 (length feature_columns)))) /\
  Forall (fun r => exists i s, nth_error feature_columns i = Some (fi_feature r) /\
                     get_score i = Some s /\ 0 < s /\ fi_value r = feature_value (fi_feature r)) res.
Proof.
  intros Hn res.
  set (coll := collect_importance feature_columns 0 get_score feature_value).
  pose proof (collect_importance_spec feature_columns 0 get_score feature_value) as Hspec.
  fold coll in Hspec.
  assert (Hcoll : forall r, In r coll -> exists i s, nth_error feature_columns i = Some (ri_feature r) /\
                     get_score i = Some s /\ 0 < s /\ ri_value r = feature_value (ri_feature r)).
  { intros r Hr.
    apply (in_map (fun r => (ri_feature r, ri_importance r, ri_value r))) in Hr.
    rewrite Hspec in Hr. apply in_map_iff in Hr as ([j c] & Heq & Hin).
    apply filter_In in Hin as [Hin Hpos]. injection Heq as Hc _ Hv.
    pose proof (in_combine_l _ _ _ _ Hin) as Hj. apply in_seq in Hj.
    exists j. unfold score_of in Hpos.
    destruct (get_score j) as [s|] eqn:Es.
    2:{ apply Qltb_true in Hpos. lra. }
    exists s. apply Qltb_true in Hpos. repeat split; [|exact Hpos|congruence].
    rewrite <- Hc. apply In_combine_seq_nth in Hin. rewrite Nat.sub_0_r in Hin. apply Hin. }
  assert (Hlc : length coll = length (filter (fun i => Qltb 0 (match get_score i with Some x => x | None => 0 end))
                    (seq 0 (length feature_columns)))).
  { rewrite <- (length_map (fun r => (ri_feature r, ri_importance r, ri_value r))), Hspec, length_map.
    unfold score_of. clear.
    generalize 0%nat as i. induction feature_columns as [|c cols IH]; intros i; simpl; [reflexivity|].
    destruct (Qltb 0 match get_score i with Some x => x | None => 0 end);
      simpl; rewrite IH; reflexivity. }
  unfold res, get_feature_importance. fold coll. split.
  - rewrite length_map, py_take_length_nonneg by exact Hn.
    rewrite (Permutation_length (sort_desc_perm coll)), Hlc. reflexivity.
  - apply Forall_map. rewrite Forall_forall. intros r Hr. simpl.
    destruct (py_take_firstn (sort_desc coll) top_n) as [m Hm]. rewrite Hm in Hr.
    apply In_firstn_In in Hr.
    apply (Permutation_in _ (sort_desc_perm coll)) in Hr. apply Hcoll, Hr.
Qed.

Lemma get_feature_importance_selection_witness :
  let res := get_feature_importance ["a"%string; "b"%string; "c"%string]
               (fun i => match i with 0%nat => Some (3#1) | 2%nat => Some (5#1) | _ => None end)
               (fun _ => 1) 1 in
  length res = Nat.min (Z.to_nat 1)
    (length (filter (fun i => Qltb 0 (match (match i with 0%nat => Some (3#1) | 2%nat => Some (5#1) | _ => None end) with Some x => x | None => 0 end))
                    (seq 0 3))) /\
  Forall (fun r => exists i s, nth_error ["a"%string; "b"%string; "c"%string] i = Some (fi_feature r) /\
                     (match i with 0%nat => Some (3#1) | 2%nat => Some (5#1) | _ => None end) = Some s /\
                     0 < s /\ fi_value r = 1) res.
Proof.
  apply (get_feature_importance_selection ["a"%string; "b"%string; "c"%string]
           (fun i => match i with 0%nat => Some (3#1) | 2%nat => Some (5#1) | _ => None end)
           (fun _ => 1) 1). lia.
Defined.

(** X9.  The explainability output is ordered: normalized importances are
    non-increasing down the list and so are the impact buckets (a [high]
    feature is never listed after a [medium] or [low] one, a [medium]
    never after a [low] one). *)
Theorem get_feature_importance_ordered (feature_columns : list string)
    (get_score : nat -> option Q) (feature_value : string -> Q) (top_n : Z) :
  StronglySorted
    (fun a b => fi_importance b <= fi_importance a /\
                (fi_impact b = high -> fi_impact a = high) /\
                (fi_impact b = medium -> fi_impact a <> low))
    (get_feature_importance feature_columns get_score feature_value top_n).
Proof.
  set (sorted := sort_desc (collect_importance feature_columns 0 get_score feature_value)).
  assert (Hpos : Forall (fun f => 0 < ri_importance f) sorted).
  { eapply Permutation_Forall; [symmetry; apply sort_desc_perm|].
    apply collect_importance_pos. }
  destruct (py_take_firstn sorted top_n) as [n Htake].
  assert (Htop_sorted : StronglySorted not_below (py_take sorted top_n)).
  { rewrite Htake. apply StronglySorted_firstn, sort_desc_sorted. }
  assert (Htop_pos : Forall (fun f => 0 < ri_importance f) (py_take sorted top_n)).
  { rewrite Htake, Forall_forall. intros f Hf. rewrite Forall_forall in Hpos.
    apply Hpos. eapply In_firstn_In; eauto. }
  unfold get_feature_importance. fold sorted.
  destruct (py_take sorted top_n) as [|f0 fs] eqn:Etop; [constructor|].
  set (mx := py_max (ri_importance f0) (map ri_importance fs)).
  assert (Hmx : 0 < mx).
  { unfold mx. rewrite py_max_first.
    - inversion Htop_pos; assumption.
    - apply StronglySorted_inv in Htop_sorted as [_ Hhd].
      apply Forall_map. exact Hhd. }
  eapply StronglySorted_map; [|exact Htop_sorted].
  intros a b Hab. unfold not_below in Hab. simpl.
  assert (Hd : ri_importance b / mx <= ri_importance a / mx) by (apply Q_div_mono; lra).
  split; [exact Hd|]. destruct (impact_of_mono _ _ Hd) as [H1 H2]. split; auto.
Qed.

Lemma get_feature_importance_ordered_witness :
  StronglySorted
    (fun a b => fi_importance b <= fi_importance a /\
                (fi_impact b = high -> fi_impact a = high) /\
                (fi_impact b = medium -> fi_impact a <> low))
    (get_feature_importance ["bw_total"; "exit_country_encoded"; "bw_min"]%string
       (fun i => match i with 0%nat => Some 12 | 1%nat => Some 3 | _ => None end)
       (fun _ => 0) 5).
Proof.
  exact (get_feature_importance_ordered ["bw_total"; "exit_country_encoded"; "bw_min"]%string
           (fun i => match i with 0%nat => Some 12 | 1%nat => Some 3 | _ => None end)
           (fun _ => 0) 5).
Defined.

(** ** Categorical encoding: helpers *)

Lemma le_transform_single (le : LabelEncoder) (v : string) :
  le_transform le [v] = match str_index v (classes_ le) with
                        | Some i => Ok [i]
                        | None => Raise ValueError
                        end.
Proof. simpl. destruct (str_index v (classes_ le)); reflexivity. Qed.

Lemma encode_or_sentinel_found (encs : encoder_registry) (col v : string) (le : LabelEncoder) (i : nat) :
  lookup_encoder encs col = Some le -> str_index v (classes_ le) = Some i ->
  encode_or_sentinel encs col v = Z.of_nat i.
Proof.
  intros Hl Hi. unfold encode_or_sentinel, get_encoder. rewrite Hl, le_transform_single, Hi.
  reflexivity.
Qed.

Lemma encode_or_sentinel_unseen (encs : encoder_registry) (col v : string) (le : LabelEncoder) :
  lookup_encoder encs col = Some le -> ~ In v (classes_ le) ->
  encode_or_sentinel encs col v = (-1)%Z.
Proof.
  intros Hl Hv. unfold encode_or_sentinel, get_encoder.
  rewrite Hl, le_transform_single, (str_index_not_In _ _ Hv). reflexivity.
Qed.

Lemma encode_or_sentinel_missing (encs : encoder_registry) (col v : string) :
  lookup_encoder encs col = None -> encode_or_sentinel encs col v = (-1)%Z.
Proof. intros Hl. unfold encode_or_sentinel, get_encoder. rewrite Hl. reflexivity. Qed.

Lemma lookup_training_encoders (df : list circuit) (col : string) (get : circuit -> string) :
  In (col, get) encoded_columns ->
  lookup_encoder (training_encoders df) col = Some (le_fit (map get df)).
Proof.
  simpl. intros [H|[H|[H|[H|[H|[]]]]]]; injection H as <- <-; reflexivity.
Qed.

Lemma Forall2_nth_error {A B} (R : A -> B -> Prop) (l1 : list A) (l2 : list B) (j : nat) (a : A) :
  Forall2 R l1 l2 -> nth_error l1 j = Some a -> exists b, nth_error l2 j = Some b /\ R a b.
Proof.
  intros H. revert j. induction H as [|x y l1 l2 Hxy _ IH]; intros j Hj.
  - destruct j; discriminate.
  - destruct j as [|j]; simpl in Hj |- *.
    + injection Hj as <-. exists y. split; [reflexivity|exact Hxy].
    + apply IH, Hj.
Qed.

(** ** Categorical encoding *)

(** X10.  The backend's guarded [transform] returns the sentinel [-1]
    exactly when the column has no encoder or the value is not one of its
    classes; otherwise it returns an index within the classes that the
    encoder's [inverse_transform] maps back to the value. *)
Theorem encode_or_sentinel_spec (encs : encoder_registry) (col v : string) :
  (encode_or_sentinel encs col v = (-1)%Z <->
     lookup_encoder encs col = None \/
     exists le, lookup_encoder encs col = Some le /\ ~ In v (classes_ le)) /\
  (forall le, lookup_encoder encs col = Some le -> In v (classes_ le) ->
     exists i, encode_or_sentinel encs col v = Z.of_nat i /\
       (i < length (classes_ le))%nat /\ decode le i = Ok v).
Proof.
  assert (Hin : forall le, lookup_encoder encs col = Some le -> In v (classes_ le) ->
     exists i, encode_or_sentinel encs col v = Z.of_nat i /\
       (i < length (classes_ le))%nat /\ decode le i = Ok v).
  { intros le Hl Hv. destruct (str_index_In v (classes_ le) Hv) as [i Hi].
    exists i. split; [apply (encode_or_sentinel_found _ _ _ le); assumption|].
    pose proof (str_index_nth _ _ _ Hi) as Hn. split.
    - apply nth_error_Some. congruence.
    - rewrite decode_spec, Hn. reflexivity. }
  split; [|exact Hin]. split.
  - intros Hs. destruct (lookup_encoder encs col) as [le|] eqn:Hl; [|left; reflexivity].
    right. exists le. split; [reflexivity|]. intros Hv.
    destruct (Hin le eq_refl Hv) as (i & Hi & _). lia.
  - intros [Hl|(le & Hl & Hv)].
    + apply encode_or_sentinel_missing, Hl.
    + apply (encode_or_sentinel_unseen _ _ _ le Hl Hv).
Qed.

Lemma encode_or_sentinel_spec_witness :
  exists i, encode_or_sentinel sample_encoders "exit_country"%string "DE"%string = Z.of_nat i /\
    (i < length (classes_ (le_fit ["DE"; "US"]%string)))%nat /\
    decode (le_fit ["DE"; "US"]%string) i = Ok "DE"%string.
Proof.
  destruct (encode_or_sentinel_spec sample_encoders "exit_country"%string "DE"%string) as [_ H].
  apply H; [reflexivity|simpl; auto].
Defined.

(** X11.  With the encoders fitted on a training frame, the backend's
    guarded encoding of any of the five categorical columns gives a value
    of row [j] the very index the training [fit_transform] stored in row
    [j] (never [-1]), and gives [-1] exactly to values absent from that
    column of the training frame. *)
Theorem backend_encoding_matches_training (df : list circuit) (col : string)
    (get : circuit -> string) :
  In (col, get) encoded_columns ->
  (forall v, encode_or_sentinel (training_encoders df) col v = (-1)%Z <-> ~ In v (map get df)) /\
  exists idxs, le_fit_transform (map get df) = Ok idxs /\
    forall j c, nth_error df j = Some c ->
      nth_error (map Z.of_nat idxs) j = Some (encode_or_sentinel (training_encoders df) col (get c)).
Proof.
  intros Hcol. pose proof (lookup_training_encoders df col get Hcol) as Hl.
  split.
  - intros v. rewrite <- (np_unique_In (map get df) v). split.
    + intros Hs Hv. destruct (str_index_In _ _ Hv) as [i Hi].
      rewrite (encode_or_sentinel_found _ _ _ _ i Hl Hi) in Hs. lia.
    + intros Hv. apply (encode_or_sentinel_unseen _ _ _ _ Hl Hv).
  - destruct (le_transform_ok (le_fit (map get df)) (map get df)) as (idxs & Hok & Hf).
    { intros v Hv. apply np_unique_In, Hv. }
    exists idxs. split; [exact Hok|]. intros j c Hj.
    assert (Hm : nth_error (map get df) j = Some (get c)) by (rewrite nth_error_map, Hj; reflexivity).
    destruct (Forall2_nth_error _ _ _ _ _ Hf Hm) as (i & Hi & He).
    rewrite nth_error_map, Hi. simpl. f_equal. symmetry.
    rewrite encode_spec in He. apply (encode_or_sentinel_found _ _ _ _ i Hl He).
Qed.

Lemma backend_encoding_matches_training_witness :
  (forall v, encode_or_sentinel (training_encoders [sample_training_circuit]) "exit_country"%string v = (-1)%Z
             <-> ~ In v (map exit_country [sample_training_circuit])) /\
  exists idxs, le_fit_transform (map exit_country [sample_training_circuit]) = Ok idxs /\
    forall j c, nth_error [sample_training_circuit] j = Some c ->
      nth_error (map Z.of_nat idxs) j =
        Some (encode_or_sentinel (training_encoders [sample_training_circuit]) "exit_country"%string (exit_country c)).
Proof.
  apply (backend_encoding_matches_training [sample_training_circuit] "exit_country"%string exit_country).
  simpl. tauto.
Defined.

(** ** The row-local features *)

Lemma nunique3_cases (a b c : string) :
  nunique [a; b; c] =
    if String.eqb a b && String.eqb a c then 1%nat
    else if String.eqb a b || String.eqb a c || String.eqb b c then 2%nat
    else 3%nat.
Proof.
  unfold nunique. cbn [nodup].
  destruct (in_dec string_dec a [b; c]) as [H1|H1];
  destruct (in_dec string_dec b [c]) as [H2|H2];
  destruct (in_dec string_dec c []) as [H3|H3]; simpl in *;
  destruct (String.eqb_spec a b); destruct (String.eqb_spec a c);
  destruct (String.eqb_spec b c); simpl; intuition congruence.
Qed.

(** X13.  The geographic indicators agree with the country count on both
    the training and the serving transform: all three countries are equal
    exactly when the count is 1 (backend: 1/3), no two are equal exactly
    when it is 3 (backend: 1), and the three pairwise flags sum to 0, 1
    or 3, never 2. *)
Theorem geographic_flags_consistent (c : circuit) :
  let F := train_row_features c in
  let B := backend_row_features c in
  let flags R := same_country_guard_middle R + same_country_guard_exit R +
                 same_country_middle_exit R in
  (country_diversity F == 1 <-> all_same_country F == 1) /\
  (country_diversity F == 3 <-> flags F == 0) /\
  (country_diversity B == 1 # 3 <-> all_same_country B == 1) /\
  (country_diversity B == 1 <-> flags B == 0) /\
  (flags F == 0 \/ flags F == 1 \/ flags F == 3) /\
  flags B == flags F /\ all_same_country B == all_same_country F.
Proof.
  intros F B flags. unfold F, B, flags, train_row_features, backend_row_features. simpl.
  rewrite nunique3_cases.
  destruct (String.eqb_spec (guard_country c) (middle_country c)) as [Hgm|Hgm];
  destruct (String.eqb_spec (guard_country c) (exit_country c)) as [Hge|Hge];
  destruct (String.eqb_spec (middle_country c) (exit_country c)) as [Hme|Hme];
  try (exfalso; congruence); simpl; unfold Qeq; simpl; lia.
Qed.

Lemma geographic_flags_consistent_witness :
  same_country_guard_middle (train_row_features sample_training_circuit) +
  same_country_guard_exit (train_row_features sample_training_circuit) +
  same_country_middle_exit (train_row_features sample_training_circuit) == 0.
Proof.
  destruct (geographic_flags_consistent sample_training_circuit) as (_ & H & _).
  apply H. vm_compute. reflexivity.
Defined.

(** X14.  Bandwidth aggregates of both transforms: [bw_min] is one of the
    three bandwidths and below each of them, [bw_max] likewise above,
    [3 * bw_min <= bw_total <= 3 * bw_max]; and for non-negative
    bandwidths the training ratios (stabilizer [+ 1]) lie between 0 and
    their numerator. *)
Theorem bandwidth_aggregates (c : circuit) :
  let g := guard_bandwidth c in
  let m := middle_bandwidth c in
  let e := exit_bandwidth c in
  let F := train_row_features c in
  (bw_min F == g \/ bw_min F == m \/ bw_min F == e) /\
  (bw_max F == g \/ bw_max F == m \/ bw_max F == e) /\
  bw_min F <= g /\ bw_min F <= m /\ bw_min F <= e /\
  g <= bw_max F /\ m <= bw_max F /\ e <= bw_max F /\
  3 * bw_min F <= bw_total F <= 3 * bw_max F /\
  bw_min (backend_row_features c) = bw_min F /\
  bw_max (backend_row_features c) = bw_max F /\
  bw_total (backend_row_features c) = bw_total F /\
  (0 <= g -> 0 <= m -> 0 <= e ->
   0 <= bw_ratio_guard_middle F <= g /\ 0 <= bw_ratio_guard_exit F <= g /\
   0 <= bw_ratio_middle_exit F <= m).
Proof.
  intros g m e F. unfold F, train_row_features, backend_row_features. simpl. fold g m e.
  assert (Hratio : forall x d, 0 <= x -> 0 <= d -> 0 <= x / (d + 1) <= x).
  { intros x d Hx Hd. split.
    - apply Qle_shift_div_l; lra.
    - apply Qle_shift_div_r; [lra|]. nra. }
  pose proof (Q.le_min_l (Qmin g m) e). pose proof (Q.le_min_r (Qmin g m) e).
  pose proof (Q.le_min_l g m). pose proof (Q.le_min_r g m).
  pose proof (Q.le_max_l (Qmax g m) e). pose proof (Q.le_max_r (Qmax g m) e).
  pose proof (Q.le_max_l g m). pose proof (Q.le_max_r g m).
  assert (Hmin : Qmin (Qmin g m) e == g \/ Qmin (Qmin g m) e == m \/ Qmin (Qmin g m) e == e).
  { destruct (Q.min_dec (Qmin g m) e) as [E|E]; [|right; right; exact E].
    destruct (Q.min_dec g m) as [E'|E']; [left|right; left]; rewrite E; exact E'. }
  assert (Hmax : Qmax (Qmax g m) e == g \/ Qmax (Qmax g m) e == m \/ Qmax (Qmax g m) e == e).
  { destruct (Q.max_dec (Qmax g m) e) as [E|E]; [|right; right; exact E].
    destruct (Q.max_dec g m) as [E'|E']; [left|right; left]; rewrite E; exact E'. }
  repeat split; try assumption; try lra.
  - apply Hratio; assumption.
  - apply Hratio; assumption.
  - apply Hratio; assumption.
  - apply Hratio; assumption.
  - apply Hratio; assumption.
  - apply Hratio; assumption.
Qed.

Lemma bandwidth_aggregates_witness :
  let F := train_row_features sample_training_circuit in
  0 <= bw_ratio_guard_middle F <= 10 /\ 0 <= bw_ratio_guard_exit F <= 10 /\
  0 <= bw_ratio_middle_exit F <= 5.
Proof.
  destruct (bandwidth_aggregates sample_training_circuit)
    as (_ & _ & _ & _ & _ & _ & _ & _ & _ & _ & _ & _ & H).
  apply H; simpl; lra.
Defined.

(** ** Historical aggregates: helpers *)

Lemma dict_get_map_key {K V} (dec : forall x y : K, {x = y} + {x <> y})
    (f : K -> V) (l : list K) (x : K) :
  dict_get dec (map (fun k => (k, f k)) l) x = if in_dec dec x l then Some (f x) else None.
Proof.
  induction l as [|a l IH]; simpl; [reflexivity|].
  destruct (dec a x) as [->|Hne].
  - destruct (in_dec dec x (x :: l)) as [_|Hn]; [reflexivity|exfalso; apply Hn; left; reflexivity].
  - rewrite IH. destruct (in_dec dec x l) as [Hi|Hi];
      destruct (in_dec dec x (a :: l)) as [Hi'|Hi']; simpl in Hi'; try reflexivity; tauto.
Qed.

Lemma dict_get_group_size {K} (dec : forall x y : K, {x = y} + {x <> y}) (keys : list K) (x : K) :
  dict_get dec (group_size dec keys) x =
    if in_dec dec x keys then Some (count_occ dec keys x) else None.
Proof.
  unfold group_size. rewrite dict_get_map_key.
  destruct (in_dec dec x (nodup dec keys)) as [H|H];
    destruct (in_dec dec x keys) as [H'|H']; rewrite nodup_In in H; tauto.
Qed.

Lemma count_occ_pair_le {A} (a b : A -> string) (df : list A) (k1 k2 : string) :
  (count_occ pair_dec (map (fun x => (a x, b x)) df) (k1, k2) <=
   count_occ string_dec (map a df) k1)%nat.
Proof.
  induction df as [|x df IH]; cbn [count_occ map]; [lia|].
  destruct (pair_dec (a x, b x) (k1, k2)) as [E|E];
    destruct (string_dec (a x) k1) as [E'|E']; try lia.
  injection E as E _. contradiction.
Qed.

Lemma count_occ_pos {A} (dec : forall x y : A, {x = y} + {x <> y}) (l : list A) (x : A) :
  In x l -> (1 <= count_occ dec l x)%nat.
Proof. intros H. apply (count_occ_In dec) in H. lia. Qed.

Lemma count_occ_map_filter {A K} (dec : forall x y : K, {x = y} + {x <> y})
    (f : A -> K) (df : list A) (k : K) :
  count_occ dec (map f df) k = length (filter (fun x => if dec (f x) k then true else false) df).
Proof.
  induction df as [|x df IH]; simpl; [reflexivity|].
  destruct (dec (f x) k); simpl; rewrite IH; reflexivity.
Qed.

Lemma Qsum_scaled_bounds (lo hi : Q) (vs : list Q) :
  Forall (fun v => lo <= v <= hi) vs ->
  Q_of_nat (length vs) * lo <= Qsum vs <= Q_of_nat (length vs) * hi.
Proof.
  induction 1 as [|v vs Hv _ IH].
  - change (Q_of_nat (length [])) with 0. simpl. split; rewrite Qmult_0_l; apply Qle_refl.
  - simpl length. simpl Qsum.
  rewrite Q_of_nat_S. lra.
Qed.

Lemma Q_mean_bounds (lo hi : Q) (vs : list Q) :
  vs <> [] -> Forall (fun v => lo <= v <= hi) vs ->
  lo <= Qsum vs / Q_of_nat (length vs) <= hi.
Proof.
  intros Hne Hf. pose proof (Qsum_scaled_bounds lo hi vs Hf) as [H1 H2].
  assert (Hn : 0 < Q_of_nat (length vs)).
  { apply Q_of_nat_pos. destruct vs; [congruence|simpl; lia]. }
  split.
  - apply Qle_shift_div_l; [exact Hn|]. rewrite Qmult_comm. exact H1.
  - apply Qle_shift_div_r; [exact Hn|]. rewrite Qmult_comm. exact H2.
Qed.

Lemma dict_get_filter_other (d : list (string * string)) (g g' : string) :
  g <> g' ->
  dict_get string_dec (filter (fun e => negb (String.eqb (fst e) g')) d) g = dict_get string_dec d g.
Proof.
  intros Hne. induction d as [|[k v] d IH]; simpl; [reflexivity|].
  destruct (String.eqb_spec k g') as [->|Hk]; simpl.
  - destruct (string_dec g' g) as [E|_]; [congruence|exact IH].
  - destruct (string_dec k g); [reflexivity|exact IH].
Qed.

Lemma dict_get_group_first (rows : list (string * string)) (g : string) :
  dict_get string_dec (group_first rows) g =
    option_map snd (find (fun e => String.eqb (fst e) g) rows).
Proof.
  induction rows as [|[g' c] rows IH]; simpl; [reflexivity|].
  destruct (string_dec g' g) as [->|Hne].
  - rewrite String.eqb_refl. reflexivity.
  - apply String.eqb_neq in Hne as Hb. rewrite Hb.
    rewrite dict_get_filter_other by congruence. exact IH.
Qed.

Lemma find_map {A B} (f : A -> B) (p : B -> bool) (l : list A) :
  find p (map f l) = option_map f (find (fun x => p (f x)) l).
Proof.
  induction l as [|x l IH]; simpl; [reflexivity|]. destruct (p (f x)); [reflexivity|exact IH].
Qed.

Lemma find_first_max {A} (R : A -> A -> Prop) (p : A -> bool) (l : list A) (e : A) :
  StronglySorted R l -> find p l = Some e ->
  In e l /\ p e = true /\ forall e', In e' l -> p e' = true -> e = e' \/ R e e'.
Proof.
  induction 1 as [|a l _ IH Ha]; simpl; [discriminate|].
  destruct (p a) eqn:Ep.
  - intros [= <-]. split; [left; reflexivity|]. split; [exact Ep|].
    intros e' [<-|He'] _; [left; reflexivity|right].
    rewrite Forall_forall in Ha. apply Ha, He'.
  - intros Hf. destruct (IH Hf) as (Hin & Hp & Hmax). split; [right; exact Hin|].
    split; [exact Hp|]. intros e' [<-|He'] Hpe'; [congruence|]. apply Hmax; assumption.
Qed.

Lemma guard_country_pref_In (df : list circuit) (g c : string) (n : nat) :
  In ((g, c), n) (guard_country_pref df) <->
  In (g, c) (map (fun x => (guard_fingerprint x, exit_country x)) df) /\
  n = count_occ pair_dec (map (fun x => (guard_fingerprint x, exit_country x)) df) (g, c).
Proof.
  unfold guard_country_pref, group_size. rewrite in_map_iff. split.
  - intros (k & [= -> ->] & Hk). rewrite nodup_In in Hk. split; [exact Hk|reflexivity].
  - intros [Hk ->]. exists (g, c). split; [reflexivity|]. rewrite nodup_In. exact Hk.
Qed.

Section CountryPreference.
Variable df : list circuit.
Variable sorted : list ((string * string) * nat).
Hypothesis Hsorted : sorted_by_count_desc (guard_country_pref df) sorted.

Local Notation keys := (map (fun x => (guard_fingerprint x, exit_country x)) df).

Lemma pref_strongly_sorted : StronglySorted (fun a b => (snd b <= snd a)%nat) sorted.
Proof.
  apply Sorted_StronglySorted; [|apply Hsorted]. intros x y z H1 H2. lia.
Qed.

Lemma pref_In (g c : string) (n : nat) :
  In ((g, c), n) sorted <-> In (g, c) keys /\ n = count_occ pair_dec keys (g, c).
Proof.
  split.
  - intros H. apply (Permutation_in _ (proj1 Hsorted)), guard_country_pref_In in H. exact H.
  - intros H. apply (Permutation_in _ (Permutation_sym (proj1 Hsorted))), guard_country_pref_In, H.
Qed.

(** The entry [guard_top_country] picks for a guard seen in the corpus. *)
Lemma pref_top (g : string) (c0 : string) :
  In (g, c0) keys ->
  exists c, dict_get string_dec (group_first (map fst sorted)) g = Some c /\
    In (g, c) keys /\
    forall c', (count_occ pair_dec keys (g, c') <= count_occ pair_dec keys (g, c))%nat.
Proof.
  intros Hk0.
  rewrite dict_get_group_first, find_map.
  destruct (find (fun x => String.eqb (fst (fst x)) g) sorted) as [[[g1 c] n]|] eqn:Ef.
  - destruct (find_first_max _ _ _ _ pref_strongly_sorted Ef) as (Hin & Hp & Hmax).
    simpl in Hp. apply String.eqb_eq in Hp. subst g1.
    apply pref_In in Hin as [Hin ->].
    exists c. split; [reflexivity|]. split; [exact Hin|]. intros c'.
    destruct (in_dec pair_dec (g, c') keys) as [Hc'|Hc'].
    + assert (He' : In ((g, c'), count_occ pair_dec keys (g, c')) sorted)
        by (apply pref_In; split; [exact Hc'|reflexivity]).
      destruct (Hmax _ He') as [E|E]; [simpl; rewrite String.eqb_refl; reflexivity|..].
      * injection E; intros; subst; lia.
      * simpl in E. exact E.
    + rewrite (count_occ_not_In pair_dec) in Hc'. rewrite Hc'. lia.
  - exfalso.
    assert (He : In ((g, c0), count_occ pair_dec keys (g, c0)) sorted)
      by (apply pref_In; split; [exact Hk0|reflexivity]).
    apply (find_none _ _ Ef) in He. simpl in He. rewrite String.eqb_refl in He. discriminate.
Qed.
End CountryPreference.

(** ** Historical aggregates *)

(** X15.  The usage-frequency features of a training row are its guard's,
    middle's and exit's occurrence counts in the corpus (at least 1; the
    guard count is the number of rows with that guard); its guard-exit and
    guard-middle pair frequencies are at least 1 and at most the
    corresponding single-relay counts.  For a guard absent from the corpus
    the usage frequency is missing (NaN) and both pair frequencies are 0. *)
Theorem usage_and_pair_frequencies (df : list circuit) (r : circuit) :
  (In r df ->
   exists ng nm ne,
     guard_usage_freq df r = Some ng /\ middle_usage_freq df r = Some nm /\
     exit_usage_freq df r = Some ne /\
     ng = length (filter (fun x => String.eqb (guard_fingerprint x) (guard_fingerprint r)) df) /\
     (1 <= ng)%nat /\ (1 <= nm)%nat /\ (1 <= ne)%nat /\
     (1 <= guard_exit_pair_freq df r <= Nat.min ng ne)%nat /\
     (1 <= guard_middle_pair_freq df r <= Nat.min ng nm)%nat) /\
  (~ In (guard_fingerprint r) (map guard_fingerprint df) ->
   guard_usage_freq df r = None /\ guard_exit_pair_freq df r = 0%nat /\
   guard_middle_pair_freq df r = 0%nat).
Proof.
  unfold guard_usage_freq, middle_usage_freq, exit_usage_freq,
    guard_exit_pair_freq, guard_middle_pair_freq, dict_get_default.
  rewrite !dict_get_group_size. split.
  - intros Hr.
    assert (Hg : In (guard_fingerprint r) (map guard_fingerprint df)) by (apply in_map, Hr).
    assert (Hm : In (middle_fingerprint r) (map middle_fingerprint df)) by (apply in_map, Hr).
    assert (He : In (exit_fingerprint r) (map exit_fingerprint df)) by (apply in_map, Hr).
    assert (Hge : In (guard_exit_key r) (map guard_exit_key df)) by (apply in_map, Hr).
    assert (Hgm : In (guard_middle_key r) (map guard_middle_key df)) by (apply in_map, Hr).
    destruct (in_dec string_dec (guard_fingerprint r) (map guard_fingerprint df)); [|contradiction].
    destruct (in_dec string_dec (middle_fingerprint r) (map middle_fingerprint df)); [|contradiction].
    destruct (in_dec string_dec (exit_fingerprint r) (map exit_fingerprint df)); [|contradiction].
    destruct (in_dec pair_dec (guard_exit_key r) (map guard_exit_key df)); [|contradiction].
    destruct (in_dec pair_dec (guard_middle_key r) (map guard_middle_key df)); [|contradiction].
    do 3 eexists. split; [reflexivity|]. split; [reflexivity|]. split; [reflexivity|].
    split.
    { rewrite count_occ_map_filter. f_equal. apply filter_ext. intros x.
      destruct (string_dec (guard_fingerprint x) (guard_fingerprint r)) as [E|E];
        symmetry; [apply String.eqb_eq, E|apply String.eqb_neq, E]. }
    split; [apply count_occ_pos, Hg|]. split; [apply count_occ_pos, Hm|].
    split; [apply count_occ_pos, He|].
    unfold guard_exit_key, guard_middle_key in *. split; split.
    + apply count_occ_pos, Hge.
    + apply Nat.min_glb.
      * apply (count_occ_pair_le guard_fingerprint exit_fingerprint).
      * pose proof (count_occ_pair_le exit_fingerprint guard_fingerprint df
                      (exit_fingerprint r) (guard_fingerprint r)) as H.
        enough (count_occ pair_dec (map (fun x => (guard_fingerprint x, exit_fingerprint x)) df)
                  (guard_fingerprint r, exit_fingerprint r) =
                count_occ pair_dec (map (fun x => (exit_fingerprint x, guard_fingerprint x)) df)
                  (exit_fingerprint r, guard_fingerprint r)) by lia.
        clear. induction df as [|x df IH]; cbn [count_occ map]; [reflexivity|].
        destruct (pair_dec (guard_fingerprint x, exit_fingerprint x) (guard_fingerprint r, exit_fingerprint r)) as [E|E];
        destruct (pair_dec (exit_fingerprint x, guard_fingerprint x) (exit_fingerprint r, guard_fingerprint r)) as [E'|E'];
        try (injection E as E1 E2); try (injection E' as E1' E2'); try congruence; rewrite IH; reflexivity.
    + apply count_occ_pos, Hgm.
    + apply Nat.min_glb.
      * apply (count_occ_pair_le guard_fingerprint middle_fingerprint).
      * pose proof (count_occ_pair_le middle_fingerprint guard_fingerprint df
                      (middle_fingerprint r) (guard_fingerprint r)) as H.
        enough (count_occ pair_dec (map (fun x => (guard_fingerprint x, middle_fingerprint x)) df)
                  (guard_fingerprint r, middle_fingerprint r) =
                count_occ pair_dec (map (fun x => (middle_fingerprint x, guard_fingerprint x)) df)
                  (middle_fingerprint r, guard_fingerprint r)) by lia.
        clear. induction df as [|x df IH]; cbn [count_occ map]; [reflexivity|].
        destruct (pair_dec (guard_fingerprint x, middle_fingerprint x) (guard_fingerprint r, middle_fingerprint r)) as [E|E];
        destruct (pair_dec (middle_fingerprint x, guard_fingerprint x) (middle_fingerprint r, guard_fingerprint r)) as [E'|E'];
        try (injection E as E1 E2); try (injection E' as E1' E2'); try congruence; rewrite IH; reflexivity.
  - intros Hg.
    destruct (in_dec string_dec (guard_fingerprint r) (map guard_fingerprint df)); [contradiction|].
    split; [reflexivity|].
    assert (Hnot : forall (h : circuit -> string),
              ~ In (guard_fingerprint r, h r) (map (fun x => (guard_fingerprint x, h x)) df)).
    { intros h Hin. apply in_map_iff in Hin as (x & [= E _] & Hx).
      apply Hg. rewrite <- E. apply in_map, Hx. }
    unfold guard_exit_key, guard_middle_key.
    destruct (in_dec pair_dec _ (map (fun x => (guard_fingerprint x, exit_fingerprint x)) df)) as [H|_];
      [exfalso; apply (Hnot exit_fingerprint H)|].
    destruct (in_dec pair_dec _ (map (fun x => (guard_fingerprint x, middle_fingerprint x)) df)) as [H|_];
      [exfalso; apply (Hnot middle_fingerprint H)|].
    split; reflexivity.
Qed.

Lemma usage_and_pair_frequencies_witness :
  exists ng nm ne,
    guard_usage_freq [sample_training_circuit] sample_training_circuit = Some ng /\
    middle_usage_freq [sample_training_circuit] sample_training_circuit = Some nm /\
    exit_usage_freq [sample_training_circuit] sample_training_circuit = Some ne /\
    ng = length (filter (fun x => String.eqb (guard_fingerprint x)
                                   (guard_fingerprint sample_training_circuit)) [sample_training_circuit]) /\
    (1 <= ng)%nat /\ (1 <= nm)%nat /\ (1 <= ne)%nat /\
    (1 <= guard_exit_pair_freq [sample_training_circuit] sample_training_circuit <= Nat.min ng ne)%nat /\
    (1 <= guard_middle_pair_freq [sample_training_circuit] sample_training_circuit <= Nat.min ng nm)%nat.
Proof.
  destruct (usage_and_pair_frequencies [sample_training_circuit] sample_training_circuit) as [H _].
  apply H. left. reflexivity.
Defined.

(** X16.  A training row's [guard_avg_bandwidth] is defined and lies
    within any bounds that hold for the guard bandwidths of all rows with
    the same guard; in particular a guard seen with a single bandwidth
    value gets exactly that value. *)
Theorem guard_avg_bandwidth_bounds (df : list circuit) (r : circuit) (lo hi : Q) :
  In r df ->
  (forall x, In x df -> guard_fingerprint x = guard_fingerprint r -> lo <= guard_bandwidth x <= hi) ->
  exists a, guard_avg_bandwidth df r = Some a /\ lo <= a <= hi.
Proof.
  intros Hr Hb. unfold guard_avg_bandwidth, group_mean.
  rewrite (dict_get_map_key string_dec).
  rewrite map_map. simpl.
  destruct (in_dec string_dec (guard_fingerprint r) (nodup string_dec (map guard_fingerprint df))) as [_|Hn].
  2:{ exfalso. apply Hn. rewrite nodup_In. apply in_map, Hr. }
  eexists. split; [reflexivity|].
  apply Q_mean_bounds.
  - intros He. apply map_eq_nil in He.
    assert (Hin : In (guard_fingerprint r, guard_bandwidth r)
                    (filter (fun r0 => if string_dec (fst r0) (guard_fingerprint r) then true else false)
                       (map (fun x => (guard_fingerprint x, guard_bandwidth x)) df))).
    { apply filter_In. split.
      - apply (in_map (fun x => (guard_fingerprint x, guard_bandwidth x))), Hr.
      - simpl. destruct (string_dec (guard_fingerprint r) (guard_fingerprint r)); congruence. }
    rewrite He in Hin. contradiction.
  - rewrite Forall_forall. intros v Hv.
    apply in_map_iff in Hv as ([k v'] & <- & Hv). apply filter_In in Hv as [Hv Hk].
    apply in_map_iff in Hv as (x & [= <- <-] & Hx). simpl in Hk.
    destruct (string_dec (guard_fingerprint x) (guard_fingerprint r)) as [E|]; [|discriminate].
    apply Hb; assumption.
Qed.

Lemma guard_avg_bandwidth_bounds_witness :
  exists a, guard_avg_bandwidth [sample_training_circuit] sample_training_circuit = Some a /\ 10 <= a <= 10.
Proof.
  apply (guard_avg_bandwidth_bounds [sample_training_circuit] sample_training_circuit 10 10).
  - left. reflexivity.
  - intros x [<-|[]] _. simpl. lra.
Defined.

(** X17.  For any order pandas' (unstable) [sort_values] may produce,
    [guard_prefers_exit_country] flags a training row only if its exit
    country is one of the most frequent exit countries of its guard; every
    guard of the corpus has at least one flagged row; and when that most
    frequent country is unique, exactly the rows with that exit country
    are flagged. *)
Theorem guard_prefers_exit_country_most_frequent (df : list circuit)
    (sorted : list ((string * string) * nat)) :
  sorted_by_count_desc (guard_country_pref df) sorted ->
  let cnt g c := count_occ pair_dec (map (fun x => (guard_fingerprint x, exit_country x)) df) (g, c) in
  (forall r, In r df -> guard_prefers_exit_country sorted r == 1 ->
     forall c', (cnt (guard_fingerprint r) c' <= cnt (guard_fingerprint r) (exit_country r))%nat) /\
  (forall r, In r df -> exists r', In r' df /\ guard_fingerprint r' = guard_fingerprint r /\
     guard_prefers_exit_country sorted r' == 1) /\
  (forall r, In r df ->
     (forall c', c' <> exit_country r ->
        (cnt (guard_fingerprint r) c' < cnt (guard_fingerprint r) (exit_country r))%nat) ->
     guard_prefers_exit_country sorted r == 1).
Proof.
  intros Hs cnt.
  assert (Hkey : forall r, In r df ->
            In (guard_fingerprint r, exit_country r) (map (fun x => (guard_fingerprint x, exit_country x)) df))
    by (intros r Hr; apply (in_map (fun x => (guard_fingerprint x, exit_country x))), Hr).
  assert (Hflag : forall r c, dict_get string_dec (group_first (map fst sorted)) (guard_fingerprint r) = Some c ->
             guard_prefers_exit_country sorted r == 1 <-> exit_country r = c).
  { intros r c Hc. unfold guard_prefers_exit_country, dict_get_default. rewrite Hc.
    destruct (String.eqb_spec (exit_country r) c); simpl; split; intros H;
      try reflexivity; try assumption; try contradiction; discriminate. }
  split; [|split].
  - intros r Hr Hp c'.
    destruct (pref_top df sorted Hs (guard_fingerprint r) (exit_country r) (Hkey r Hr))
      as (c & Hc & _ & Hmax).
    apply (Hflag r c Hc) in Hp. subst c. apply Hmax.
  - intros r Hr.
    destruct (pref_top df sorted Hs (guard_fingerprint r) (exit_country r) (Hkey r Hr))
      as (c & Hc & Hin & _).
    apply in_map_iff in Hin as (r' & [= Eg Ec] & Hr').
    exists r'. split; [exact Hr'|]. split; [exact Eg|].
    apply (Hflag r' c); [rewrite Eg; exact Hc|exact Ec].
  - intros r Hr Huniq.
    destruct (pref_top df sorted Hs (guard_fingerprint r) (exit_country r) (Hkey r Hr))
      as (c & Hc & _ & Hmax).
    apply (Hflag r c Hc).
    destruct (string_dec c (exit_country r)) as [E|E]; [congruence|].
    specialize (Huniq c E). specialize (Hmax (exit_country r)). unfold cnt in Huniq. lia.
Qed.

Lemma guard_prefers_exit_country_most_frequent_witness :
  exists r', In r' [sample_training_circuit] /\
    guard_fingerprint r' = guard_fingerprint sample_training_circuit /\
    guard_prefers_exit_country (guard_country_pref [sample_training_circuit]) r' == 1.
Proof.
  destruct (guard_prefers_exit_country_most_frequent [sample_training_circuit]
              (guard_country_pref [sample_training_circuit]))
    as (_ & H2 & _).
  - split; [apply Permutation_refl|]. repeat constructor.
  - apply H2. left. reflexivity.
Defined.

Lemma NoDup_map_nth (l : list string) (idxs : list nat) :
  NoDup l -> NoDup idxs -> Forall (fun i => (i < length l)%nat) idxs ->
  NoDup (map (fun i => nth i l EmptyString) idxs).
Proof.
  intros Hl. induction 1 as [|i idxs Hi _ IH]; intros Hf; simpl; constructor.
  - intros Hin. apply in_map_iff in Hin as (j & Hj & Hjin).
    inversion Hf as [|? ? Hilt Hf']; subst. rewrite Forall_forall in Hf'.
    rewrite (NoDup_nth l EmptyString) in Hl.
    assert (j = i) by (apply Hl; auto). subst j. contradiction.
  - apply IH. inversion Hf; assumption.
Qed.

Lemma In_feature_cols_of (columns : list string) (w : string) :
  In w (feature_cols_of columns) <-> In w columns /\ ~ In w exclude_cols.
Proof.
  unfold feature_cols_of. rewrite filter_In, negb_true_iff.
  split.
  - intros [H E]. split; [exact H|]. intros Hx. apply existsb_eqb_str in Hx.
    rewrite Hx in E. discriminate.
  - intros [H Hx]. split; [exact H|].
    destruct (existsb (String.eqb w) exclude_cols) eqn:E; [|reflexivity].
    apply existsb_eqb_str in E. contradiction.
Qed.

Lemma prepare_assigned_served (w : string) :
  In w prepare_features_assigned -> ~ In w exclude_cols -> In w backend_columns.
Proof.
  intros Hw Hx.
  assert (Hb : forallb (fun w => implb (negb (existsb (String.eqb w) exclude_cols))
                                       (existsb (String.eqb w) backend_columns))
                 prepare_features_assigned = true) by (vm_compute; reflexivity).
  rewrite forallb_forall in Hb. specialize (Hb w Hw).
  destruct (existsb (String.eqb w) exclude_cols) eqn:E.
  - apply existsb_eqb_str in E. contradiction.
  - cbn [negb implb] in Hb. apply (proj1 (existsb_eqb_str w backend_columns)). exact Hb.
Qed.

Lemma In_engineered_columns (raw : list string) (w : string) :
  In w (engineered_columns raw) <-> In w raw \/ In w prepare_features_assigned.
Proof.
  exact (In_df_assign_all raw prepare_features_assigned w).
Qed.
Lemma df_select_feature_cols (raw : list string) :
  df_select backend_columns (feature_cols_of (engineered_columns raw)) =
    Ok (feature_cols_of (engineered_columns raw)) <->
  forall w, In w raw -> ~ In w exclude_cols -> In w backend_columns.
Proof.
  split.
  - intros H w Hw Hx. apply (proj1 (df_select_Ok _ _) H).
    apply (proj2 (In_feature_cols_of _ w)). split; [|exact Hx].
    apply (proj2 (In_engineered_columns raw w)). left. exact Hw.
  - intros H. apply (proj2 (df_select_Ok _ _)). intros w Hw.
    apply (proj1 (In_feature_cols_of _ w)) in Hw as [Hw Hx].
    apply (proj1 (In_engineered_columns raw w)) in Hw as [Hw|Hw].
    + apply H; assumption.
    + apply prepare_assigned_served; assumption.
Qed.
(** X19.  train_xgboost.py keeps every column of the engineered CSV that
    is not excluded; the backend frame can serve that column list
    ([X = df[feature_columns]] does not raise [KeyError]) exactly when every
    non-excluded column of the raw CSV is also a backend column, and
    raises [KeyError] otherwise.  On the header written by
    generate_simulated_data.py this gives 31 distinct feature columns,
    which the backend serves. *)
Theorem feature_columns_served (raw : list string) :
  (df_select backend_columns (feature_cols_of (engineered_columns raw)) =
     Ok (feature_cols_of (engineered_columns raw)) <->
   forall w, In w raw -> ~ In w exclude_cols -> In w backend_columns) /\
  (df_select backend_columns (feature_cols_of (engineered_columns raw)) <>
     Ok (feature_cols_of (engineered_columns raw)) ->
   df_select backend_columns (feature_cols_of (engineered_columns raw)) = Raise KeyError) /\
  length (feature_cols_of (engineered_columns raw_fieldnames)) = 31%nat /\
  NoDup (feature_cols_of (engineered_columns raw_fieldnames)) /\
  df_select backend_columns (feature_cols_of (engineered_columns raw_fieldnames)) =
    Ok (feature_cols_of (engineered_columns raw_fieldnames)).
Proof.
  split; [apply df_select_feature_cols|]. split.
  - apply df_select_not_Ok.
  - split; [vm_compute; reflexivity|]. split.
    + assert (E : nodup string_dec (feature_cols_of (engineered_columns raw_fieldnames)) =
                  feature_cols_of (engineered_columns raw_fieldnames)) by (vm_compute; reflexivity).
      rewrite <- E. apply NoDup_nodup.
    + vm_compute. reflexivity.
Qed.

Lemma feature_columns_served_witness :
  df_select backend_columns (feature_cols_of (engineered_columns ["extra"%string])) = Raise KeyError.
Proof.
  destruct (feature_columns_served ["extra"%string]) as [Hiff [Hraise _]].
  apply Hraise. intros Hok. apply (proj1 Hiff) with (w := "extra"%string) in Hok.
  - assert (Hb : existsb (String.eqb "extra"%string) backend_columns = false) by (vm_compute; reflexivity).
    apply (proj2 (existsb_eqb_str _ _)) in Hok. rewrite Hok in Hb. discriminate Hb.
  - left. reflexivity.
  - intros Hx. apply (proj2 (existsb_eqb_str _ _)) in Hx.
    assert (Hb : existsb (String.eqb "extra"%string) exclude_cols = false) by (vm_compute; reflexivity).
    rewrite Hx in Hb. discriminate Hb.
Defined.
(** ** Service state after [load_model]: [root] and [model_info] *)

Lemma np_unique_length (l : list string) : length (np_unique l) = nunique l.
Proof.
  unfold np_unique, nunique. apply Permutation_length, str_sort_perm.
Qed.

Lemma np_unique_single (l : list string) (g : string) :
  np_unique l = [g] -> Forall (fun x => x = g) l.
Proof.
  intros E. apply Forall_forall. intros x Hx.
  assert (Hin : In x (np_unique l)).
  { unfold np_unique. apply (Permutation_in _ (Permutation_sym (str_sort_perm _))).
    apply nodup_In. exact Hx. }
  rewrite E in Hin. destruct Hin as [Hin|[]]. symmetry; exact Hin.
Qed.

Lemma get_encoder_training_guard (df : list circuit) :
  get_encoder (training_encoders df) "guard_fingerprint"%string =
    Ok (le_fit (map guard_fingerprint df)).
Proof. reflexivity. Qed.

(** X20.  After [load_model] with the encoders fitted by
    prepare_features.py and a feature list [fc], [root] reports the model as loaded with as many
    guards as there are distinct guard fingerprints in the training data.
    [model_info] tests [guard_fingerprints] for truth: unless the training
    data has exactly one distinct guard it raises [ValueError] (the truth
    of a NumPy array of another size); with one guard [g] it reports
    [num_classes] 1, or 0 when [g] is empty, and the feature list [fc]. *)
Theorem model_info_after_load (df : list circuit) (fc : list string) :
  exists st,
    loaded_state (training_encoders df) fc = Ok st /\
    root st = {| rs_model_loaded := true;
                 rs_guard_count := nunique (map guard_fingerprint df) |} /\
    (nunique (map guard_fingerprint df) <> 1%nat -> model_info st = Raise ValueError) /\
    (nunique (map guard_fingerprint df) = 1%nat ->
     exists g, Forall (fun c => guard_fingerprint c = g) df /\
       model_info st = Ok {| mi_num_classes := if String.eqb g EmptyString then 0%nat else 1%nat;
                             mi_num_features := length fc;
                             mi_feature_list := fc |}).
Proof.
  eexists. split.
  { unfold loaded_state. rewrite get_encoder_training_guard. reflexivity. }
  split.
  { unfold root. cbn [st_model_loaded st_guard_fingerprints le_fit classes_].
    rewrite np_unique_length. reflexivity. }
  split.
  - intros Hn. unfold model_info. cbn [st_guard_fingerprints le_fit classes_].
    rewrite <- np_unique_length in Hn.
    destruct (np_unique (map guard_fingerprint df)) as [|x [|y r]];
      [reflexivity| |reflexivity].
    exfalso. apply Hn. reflexivity.
  - intros Hn. rewrite <- np_unique_length in Hn.
    destruct (np_unique (map guard_fingerprint df)) as [|g [|y r]] eqn:E;
      try discriminate Hn.
    exists g. split.
    + apply np_unique_single in E. apply Forall_map in E. exact E.
    + unfold model_info. cbn [st_guard_fingerprints st_feature_columns le_fit classes_].
      rewrite E. cbn [np_array_truth py_bind length].
      destruct (String.eqb g EmptyString); reflexivity.
Qed.

Lemma model_info_after_load_witness :
  exists st,
    loaded_state (training_encoders
      [sample_training_circuit;
       {| circuit_id := 2;
          guard_fingerprint := "G2";
          middle_fingerprint := "M1";
          exit_fingerprint := "E1";
          guard_country := "US";
          middle_country := "DE";
          exit_country := "FR";
          guard_bandwidth := 10;
          middle_bandwidth := 5;
          exit_bandwidth := 4;
          circuit_setup_duration := 1;
          total_bytes := 1000 |}%string]) ["bw_total"%string] = Ok st /\
    model_info st = Raise ValueError.
Proof.
  destruct (model_info_after_load
      [sample_training_circuit;
       {| circuit_id := 2;
          guard_fingerprint := "G2";
          middle_fingerprint := "M1";
          exit_fingerprint := "E1";
          guard_country := "US";
          middle_country := "DE";
          exit_country := "FR";
          guard_bandwidth := 10;
          middle_bandwidth := 5;
          exit_bandwidth := 4;
          circuit_setup_duration := 1;
          total_bytes := 1000 |}%string] ["bw_total"%string])
    as (st & H1 & _ & H3 & _).
  exists st. split; [exact H1|]. apply H3. intros HH. vm_compute in HH. discriminate HH.
Defined.
(** ** backend/main.py: the topology endpoint *)

Lemma sample_length (sample : sampler) (pop : list string) (k : nat) :
  sample_contract sample -> (k <= length pop)%nat -> length (sample pop k) = k.
Proof.
  intros Hs Hk. destruct (Hs pop k Hk) as (idxs & _ & Hl & _ & E).
  rewrite E, length_map. exact Hl.
Qed.

Lemma length_flat_map_circuit_links (l : list (string * (string * string))) :
  length (flat_map circuit_links l) = (2 * length l)%nat.
Proof.
  induction l as [|[g [m e]] l IH]; [reflexivity|].
  simpl. rewrite IH. lia.
Qed.

Lemma generate_topology_lengths (gfs : option (list string)) (sample : sampler) (limit : Z) :
  sample_contract sample ->
  let fps := match gfs with Some l => l | None => fake_fingerprints end in
  let s := Nat.min (Z.to_nat (Z.max 10 (limit / 3))) (length fps) in
  node_count (generate_topology gfs sample limit) = (3 * s)%nat /\
  link_count (generate_topology gfs sample limit) = (2 * s)%nat /\
  length (tr_nodes (generate_topology gfs sample limit)) =
    node_count (generate_topology gfs sample limit) /\
  length (tr_links (generate_topology gfs sample limit)) =
    link_count (generate_topology gfs sample limit).
Proof.
  intros Hs fps s. unfold generate_topology. cbv zeta. fold fps. fold s.
  assert (HG : length (sample fps s) = s).
  { apply sample_length; [exact Hs|]. unfold s. apply Nat.le_min_r. }
  set (G := sample fps s) in *.
  rewrite (firstn_all2 G) by lia.
  cbn [node_count link_count tr_nodes tr_links].
  rewrite !length_map, !length_app, !length_map, length_flat_map_circuit_links,
    !length_combine, !length_map, HG.
  repeat split; lia.
Qed.

Lemma length_fake_fingerprints : length fake_fingerprints = 200%nat.
Proof. unfold fake_fingerprints. rewrite length_map, length_seq. reflexivity. Qed.

(** X21.  [topology] answers status 400 when [limit] is below 10 or above
    150.  Otherwise, when [random.sample] behaves as documented, it returns
    [3 s] nodes and [2 s] links, the counts matching the lists, where
    [s = min(max(10, limit // 3), len(fingerprints))].  The node count never
    exceeds [max(30, limit)]; with no model loaded (200 fake fingerprints)
    it is exactly [3 * max(10, limit // 3)], so every limit below 30 gets
    30 nodes. *)
Theorem topology_shape (gfs : option (list string)) (sample : sampler) (limit : Z) :
  sample_contract sample ->
  ((limit < 10 \/ 150 < limit)%Z -> topology gfs sample limit = inr 400%Z) /\
  ((10 <= limit <= 150)%Z ->
   exists R, topology gfs sample limit = inl R /\
     let fps := match gfs with Some l => l | None => fake_fingerprints end in
     let s := Nat.min (Z.to_nat (Z.max 10 (limit / 3))) (length fps) in
     node_count R = (3 * s)%nat /\ link_count R = (2 * s)%nat /\
     length (tr_nodes R) = node_count R /\ length (tr_links R) = link_count R /\
     (node_count R <= Z.to_nat (Z.max 30 limit))%nat /\
     (gfs = None -> node_count R = (3 * Z.to_nat (Z.max 10 (limit / 3)))%nat)).
Proof.
  intros Hs. split.
  - intros [H|H]; unfold topology.
    + apply Z.ltb_lt in H. rewrite H. reflexivity.
    + destruct (Z.ltb_spec limit 10); [reflexivity|].
      apply Z.ltb_lt in H. rewrite H. reflexivity.
  - intros [H1 H2]. exists (generate_topology gfs sample limit). split.
    + unfold topology. destruct (Z.ltb_spec limit 10); [lia|].
      destruct (Z.ltb_spec 150 limit); [lia|]. reflexivity.
    + intros fps s. destruct (generate_topology_lengths gfs sample limit Hs)
        as (Hn & Hl & Hnl & Hll).
      fold fps s in Hn, Hl.
      split; [exact Hn|]. split; [exact Hl|]. split; [exact Hnl|]. split; [exact Hll|].
      split.
      * rewrite Hn. assert (Hs3 : (s <= Z.to_nat (Z.max 10 (limit / 3)))%nat)
          by apply Nat.le_min_l.
        assert (Hd : (3 * (limit / 3) <= limit)%Z) by (apply Z.mul_div_le; lia).
        assert (Hq : (0 <= limit / 3)%Z) by (apply Z.div_pos; lia).
        destruct (Z.max_spec 10 (limit / 3)) as [[_ E]|[_ E]]; rewrite E in Hs3;
          destruct (Z.max_spec 30 limit) as [[_ F]|[_ F]]; rewrite F; lia.
      * intros ->. rewrite Hn. unfold s, fps. rewrite length_fake_fingerprints.
        f_equal. apply Nat.min_l.
        assert (Hq : (limit / 3 <= 50)%Z) by (apply Z.div_le_upper_bound; lia).
        lia.
Qed.

Lemma topology_shape_witness :
  exists R, topology None (fun pop k => map (fun i => nth i pop EmptyString) (seq 0 k)) 20%Z = inl R /\
    node_count R = 30%nat.
Proof.
  assert (Hs : sample_contract (fun pop k => map (fun i => nth i pop EmptyString) (seq 0 k))).
  { intros pop k Hk. exists (seq 0 k). split; [apply seq_NoDup|]. split; [apply length_seq|].
    split; [|reflexivity].
    apply Forall_forall. intros i Hi. apply in_seq in Hi. lia. }
  destruct (topology_shape None _ 20%Z Hs) as [_ H].
  destruct H as (R & E & Hn & _ & _ & _ & _ & Hf); [lia|].
  exists R. split; [exact E|]. rewrite Hf by reflexivity. reflexivity.
Defined.
(** ** Node degrees of the topology *)

Lemma dict_get_set_same {K V} (dec : forall x y : K, {x = y} + {x <> y})
    (d : list (K * V)) (k : K) (v : V) :
  dict_get dec (dict_set dec d k v) k = Some v.
Proof.
  induction d as [|[k' v'] d IH]; simpl.
  - destruct (dec k k); [reflexivity|contradiction].
  - destruct (dec k' k) as [->|Hne]; simpl.
    + destruct (dec k k); [reflexivity|contradiction].
    + destruct (dec k' k); [contradiction|exact IH].
Qed.

Lemma dict_get_set_other {K V} (dec : forall x y : K, {x = y} + {x <> y})
    (d : list (K * V)) (k k' : K) (v : V) :
  k <> k' -> dict_get dec (dict_set dec d k v) k' = dict_get dec d k'.
Proof.
  intros Hne. induction d as [|[k0 v0] d IH]; simpl.
  - destruct (dec k k'); [contradiction|reflexivity].
  - destruct (dec k0 k) as [->|Hne0]; simpl.
    + destruct (dec k k'); [contradiction|reflexivity].
    + destruct (dec k0 k'); [reflexivity|exact IH].
Qed.

Lemma bump_get (dm : list (string * nat)) (y x : string) :
  dict_get_default string_dec (bump dm y) x 0%nat =
    (dict_get_default string_dec dm x 0 + if string_dec y x then 1 else 0)%nat.
Proof.
  unfold bump, dict_get_default. destruct (string_dec y x) as [->|Hne].
  - rewrite dict_get_set_same. destruct (dict_get string_dec dm x); lia.
  - rewrite dict_get_set_other by exact Hne. lia.
Qed.

Lemma degree_map_of_count (links : list TopologyLink) (x : string) :
  dict_get_default string_dec (degree_map_of links) x 0%nat =
    count_occ string_dec (flat_map (fun lk => [tl_source lk; tl_target lk]) links) x.
Proof.
  unfold degree_map_of.
  assert (Hgen : forall dm,
    dict_get_default string_dec
      (fold_left (fun dm lk => bump (bump dm (tl_source lk)) (tl_target lk)) links dm) x 0%nat =
    (dict_get_default string_dec dm x 0 +
     count_occ string_dec (flat_map (fun lk => [tl_source lk; tl_target lk]) links) x)%nat).
  { induction links as [|lk links IH]; intros dm; cbn [fold_left flat_map app count_occ].
    - lia.
    - rewrite IH, !bump_get.
      destruct (string_dec (tl_source lk) x), (string_dec (tl_target lk) x); lia. }
  rewrite Hgen. reflexivity.
Qed.

Lemma circuit_links_of_map (G : list string) (f h : string -> string) :
  flat_map circuit_links (combine G (combine (map f G) (map h G))) =
  flat_map (fun g => [{| tl_source := g; tl_target := f g |};
                      {| tl_source := f g; tl_target := h g |}]) G.
Proof.
  induction G as [|g G IH]; [reflexivity|]. simpl. rewrite IH. reflexivity.
Qed.

Lemma endpoints_count (G : list string) (f h : string -> string) (x : string) :
  count_occ string_dec
    (flat_map (fun lk => [tl_source lk; tl_target lk])
      (flat_map (fun g => [{| tl_source := g; tl_target := f g |};
                           {| tl_source := f g; tl_target := h g |}]) G)) x =
  (count_occ string_dec G x + 2 * count_occ string_dec (map f G) x +
   count_occ string_dec (map h G) x)%nat.
Proof.
  induction G as [|g G IH]; [reflexivity|].
  cbn [flat_map app map count_occ tl_source tl_target]. rewrite IH.
  destruct (string_dec g x), (string_dec (f g) x), (string_dec (h g) x); lia.
Qed.

Lemma map_fixed {A} (f : A -> A) (l : list A) : (forall x, f x = x) -> map f l = l.
Proof.
  intros Hf. induction l as [|a l IH]; [reflexivity|]. simpl. rewrite Hf, IH. reflexivity.
Qed.

Lemma count_occ_one_app3 (a b c : list string) (x : string) :
  NoDup (a ++ b ++ c) -> In x (a ++ b ++ c) ->
  (count_occ string_dec a x + count_occ string_dec b x + count_occ string_dec c x = 1)%nat.
Proof.
  intros Hnd Hin. apply (proj1 (NoDup_count_occ' string_dec _)) with (x := x) in Hnd;
    [|exact Hin].
  rewrite !count_occ_app in Hnd. lia.
Qed.

Lemma fake_fingerprints_shape :
  forall g, In g fake_fingerprints ->
    str_prefix g 12 = g /\ str_suffix g 12 = g /\ String.get 0 g = Some (Ascii.ascii_of_nat 70).
Proof.
  assert (Hb : forallb (fun g => String.eqb (str_prefix g 12) g && String.eqb (str_suffix g 12) g &&
                        match String.get 0 g with
                        | Some c => Ascii.eqb c (Ascii.ascii_of_nat 70)
                        | None => false
                        end) fake_fingerprints = true) by (vm_compute; reflexivity).
  intros g Hg. rewrite forallb_forall in Hb. specialize (Hb g Hg).
  apply andb_prop in Hb as [Hb H3]. apply andb_prop in Hb as [H1 H2].
  apply String.eqb_eq in H1, H2. split; [exact H1|]. split; [exact H2|].
  destruct (String.get 0 g) as [c|]; [|discriminate H3].
  apply Ascii.eqb_eq in H3. rewrite H3. reflexivity.
Qed.

Lemma fake_fingerprints_NoDup : NoDup fake_fingerprints.
Proof.
  assert (E : nodup string_dec fake_fingerprints = fake_fingerprints) by (vm_compute; reflexivity).
  rewrite <- E. apply NoDup_nodup.
Qed.

Lemma append_prefix_inj (p a b : string) : String.append p a = String.append p b -> a = b.
Proof.
  intros H. induction p as [|c p IH]; [exact H|]. injection H. exact IH.
Qed.

Lemma NoDup_map_append_prefix (p : string) (l : list string) :
  NoDup l -> NoDup (map (String.append p) l).
Proof.
  induction 1 as [|a l Ha _ IH]; simpl; constructor; [|exact IH].
  intros Hin. apply in_map_iff in Hin as (y & E & Hy).
  apply append_prefix_inj in E. subst y. contradiction.
Qed.

(** X22.  With [random.sample] as documented, every node of
    [generate_topology] carries as degree the number of link endpoints
    (sources and targets) equal to its id.  When the node ids are pairwise
    distinct, every guard and exit node has degree 1 and every middle node
    degree 2; they are distinct when no model is loaded (the fake
    fingerprints). *)
Theorem topology_degrees (gfs : option (list string)) (sample : sampler) (limit : Z) :
  sample_contract sample ->
  let R := generate_topology gfs sample limit in
  (forall n, In n (tr_nodes R) ->
     tn_degree n = count_occ string_dec
                     (flat_map (fun lk => [tl_source lk; tl_target lk]) (tr_links R)) (tn_id n)) /\
  (NoDup (map tn_id (tr_nodes R)) ->
   forall n, In n (tr_nodes R) ->
     tn_degree n = match tn_role n with middle => 2%nat | _ => 1%nat end) /\
  (gfs = None -> NoDup (map tn_id (tr_nodes R))).
Proof.
  intros Hs R. unfold R, generate_topology. cbv zeta.
  set (fps := match gfs with Some l => l | None => fake_fingerprints end).
  set (s := Nat.min (Z.to_nat (Z.max 10 (limit / 3))) (length fps)).
  assert (HG : length (sample fps s) = s).
  { apply sample_length; [exact Hs|]. unfold s. apply Nat.le_min_r. }
  set (G := sample fps s) in *.
  rewrite (firstn_all2 G) by lia.
  set (mf := fun fp => String.append "MID-"%string (str_prefix fp 12)).
  set (ef := fun fp => String.append "EXT-"%string (str_suffix fp 12)).
  rewrite circuit_links_of_map. cbn [tr_nodes tr_links].
  assert (Hids : map tn_id
    (map (fun n => {| tn_id := tn_id n; tn_fingerprint := tn_fingerprint n;
                      tn_nickname := tn_nickname n; tn_role := tn_role n;
                      tn_degree := dict_get_default string_dec
                        (degree_map_of (flat_map (fun g => [{| tl_source := g; tl_target := mf g |};
                                                            {| tl_source := mf g; tl_target := ef g |}]) G))
                        (tn_id n) 0%nat |})
      (map (fun fp => mk_node fp guard) G ++ map (fun fp => mk_node fp middle) (map mf G) ++
       map (fun fp => mk_node fp exit) (map ef G))) = G ++ map mf G ++ map ef G).
  { rewrite map_map, !map_app, !map_map.
    f_equal. apply map_fixed; reflexivity. }
  rewrite Hids. split; [|split].
  - intros n Hn. apply in_map_iff in Hn as (n0 & <- & _). cbn [tn_degree tn_id].
    apply degree_map_of_count.
  - intros Hnd n Hn. apply in_map_iff in Hn as (n0 & <- & Hn0). cbn [tn_degree tn_id tn_role].
    rewrite degree_map_of_count, endpoints_count.
    apply in_app_iff in Hn0 as [Hn0|Hn0]; [|apply in_app_iff in Hn0 as [Hn0|Hn0]];
      apply in_map_iff in Hn0 as (x & <- & Hx); cbn [mk_node tn_id tn_role].
    + pose proof (count_occ_one_app3 _ _ _ x Hnd) as H1.
      assert (Hc : (count_occ string_dec G x > 0)%nat) by (apply count_occ_In; exact Hx).
      assert (H1' := H1 ltac:(apply in_app_iff; left; exact Hx)). lia.
    + pose proof (count_occ_one_app3 _ _ _ x Hnd) as H1.
      assert (Hc : (count_occ string_dec (map mf G) x > 0)%nat) by (apply count_occ_In; exact Hx).
      assert (H1' := H1 ltac:(apply in_app_iff; right; apply in_app_iff; left; exact Hx)). lia.
    + pose proof (count_occ_one_app3 _ _ _ x Hnd) as H1.
      assert (Hc : (count_occ string_dec (map ef G) x > 0)%nat) by (apply count_occ_In; exact Hx).
      assert (H1' := H1 ltac:(apply in_app_iff; right; apply in_app_iff; right; exact Hx)). lia.
  - intros Hg. subst gfs.
    assert (Hfake : forall g, In g G -> In g fake_fingerprints).
    { intros g Hg. destruct (Hs fps s ltac:(unfold s; apply Nat.le_min_r))
        as (idxs & _ & _ & Hlt & E).
      fold G in E. rewrite E in Hg. apply in_map_iff in Hg as (i & <- & Hi).
      apply nth_In. rewrite Forall_forall in Hlt. exact (Hlt i Hi). }
    assert (HndG : NoDup G).
    { destruct (Hs fps s ltac:(unfold s; apply Nat.le_min_r))
        as (idxs & Hnd & _ & Hlt & E).
      fold G in E. rewrite E. apply NoDup_map_nth; [apply fake_fingerprints_NoDup|exact Hnd|exact Hlt]. }
    assert (Hm : map mf G = map (String.append "MID-"%string) G).
    { apply map_ext_in. intros g Hg. unfold mf.
      destruct (fake_fingerprints_shape g (Hfake g Hg)) as (-> & _ & _). reflexivity. }
    assert (He : map ef G = map (String.append "EXT-"%string) G).
    { apply map_ext_in. intros g Hg. unfold ef.
      destruct (fake_fingerprints_shape g (Hfake g Hg)) as (_ & -> & _). reflexivity. }
    rewrite Hm, He.
    apply NoDup_app; [exact HndG| |].
    + apply NoDup_app; [apply NoDup_map_append_prefix, HndG|apply NoDup_map_append_prefix, HndG|].
      intros a Ha Hb. apply in_map_iff in Ha as (x & <- & _). apply in_map_iff in Hb as (y & E & _).
      discriminate E.
    + intros a Ha Hb. destruct (fake_fingerprints_shape a (Hfake a Ha)) as (_ & _ & Hc).
      apply in_app_iff in Hb as [Hb|Hb]; apply in_map_iff in Hb as (y & <- & _);
        discriminate Hc.
Qed.

Lemma topology_degrees_witness :
  Forall (fun n => tn_degree n = match tn_role n with middle => 2%nat | _ => 1%nat end)
    (tr_nodes (generate_topology None
                 (fun pop k => map (fun i => nth i pop EmptyString) (seq 0 k)) 30%Z)).
Proof.
  assert (Hs : sample_contract (fun pop k => map (fun i => nth i pop EmptyString) (seq 0 k))).
  { intros pop k Hk. exists (seq 0 k). split; [apply seq_NoDup|]. split; [apply length_seq|].
    split; [|reflexivity].
    apply Forall_forall. intros i Hi. apply in_seq in Hi. lia. }
  destruct (topology_degrees None _ 30%Z Hs) as (_ & H2 & H3).
  apply Forall_forall. apply H2, H3. reflexivity.
Defined.
(** ** backend/main.py [load_model]: the metadata loops *)

Lemma load_fold (es : list (option (string * GuardMeta))) (meta : list (string * GuardMeta)) (n : nat) :
  fold_left load_step es (meta, n) =
  (fold_left (fun d e => dict_set string_dec d (fst e) (snd e))
     (flat_map (fun o => match o with Some e => [e] | None => [] end) es) meta,
   (n + length (flat_map (fun o => match o with Some e => [e] | None => [] end) es))%nat).
Proof.
  revert meta n. induction es as [|[[fp m]|] es IH]; intros meta n; simpl.
  - f_equal. lia.
  - rewrite IH. f_equal. lia.
  - rewrite IH. reflexivity.
Qed.

Lemma dict_get_app {K V} (dec : forall x y : K, {x = y} + {x <> y}) (l l' : list (K * V)) (k : K) :
  dict_get dec (l ++ l') k =
    match dict_get dec l k with Some v => Some v | None => dict_get dec l' k end.
Proof.
  induction l as [|[k' v'] l IH]; simpl; [reflexivity|].
  destruct (dec k' k); [reflexivity|exact IH].
Qed.

Lemma dict_get_fold_set (entries : list (string * GuardMeta)) (d : list (string * GuardMeta)) (k : string) :
  dict_get string_dec (fold_left (fun d e => dict_set string_dec d (fst e) (snd e)) entries d) k =
    match dict_get string_dec (rev entries) k with Some v => Some v | None => dict_get string_dec d k end.
Proof.
  revert d. induction entries as [|[k' v'] entries IH]; intros d; simpl; [reflexivity|].
  rewrite IH, dict_get_app. simpl.
  destruct (dict_get string_dec (rev entries) k); [reflexivity|].
  destruct (string_dec k' k) as [->|Hne].
  - apply dict_get_set_same.
  - apply dict_get_set_other. exact Hne.
Qed.

Lemma In_keys_dict_set {K V} (dec : forall x y : K, {x = y} + {x <> y})
    (d : list (K * V)) (k k' : K) (v : V) :
  In k' (map fst (dict_set dec d k v)) <-> k = k' \/ In k' (map fst d).
Proof.
  induction d as [|[k0 v0] d IH]; simpl.
  - tauto.
  - destruct (dec k0 k) as [->|Hne]; simpl; [tauto|]. rewrite IH. tauto.
Qed.

Lemma NoDup_keys_dict_set {K V} (dec : forall x y : K, {x = y} + {x <> y})
    (d : list (K * V)) (k : K) (v : V) :
  NoDup (map fst d) -> NoDup (map fst (dict_set dec d k v)).
Proof.
  induction d as [|[k0 v0] d IH]; simpl; intros Hnd.
  - constructor; [intros []|constructor].
  - inversion Hnd as [|x l Hx Hnd' E]; subst.
    destruct (dec k0 k) as [->|Hne]; simpl; constructor; try assumption.
    + rewrite In_keys_dict_set. intros [H|H]; [congruence|contradiction].
    + apply IH. exact Hnd'.
Qed.

Lemma In_dict_set {K V} (dec : forall x y : K, {x = y} + {x <> y})
    (d : list (K * V)) (k : K) (v : V) (p : K * V) :
  In p (dict_set dec d k v) -> p = (k, v) \/ In p d.
Proof.
  induction d as [|[k0 v0] d IH]; simpl.
  - intros [H|[]]. left. symmetry. exact H.
  - destruct (dec k0 k) as [->|Hne]; simpl.
    + intros [H|H]; [left; symmetry; exact H|right; right; exact H].
    + intros [H|H]; [right; left; exact H|]. destruct (IH H); tauto.
Qed.

Lemma fold_set_keys (entries : list (string * GuardMeta)) (d : list (string * GuardMeta)) :
  NoDup (map fst d) ->
  NoDup (map fst (fold_left (fun d e => dict_set string_dec d (fst e) (snd e)) entries d)) /\
  (forall k, In k (map fst (fold_left (fun d e => dict_set string_dec d (fst e) (snd e)) entries d)) <->
             In k (map fst d) \/ In k (map fst entries)) /\
  (forall p, In p (fold_left (fun d e => dict_set string_dec d (fst e) (snd e)) entries d) ->
             In p d \/ In p entries).
Proof.
  revert d. induction entries as [|[k v] entries IH]; intros d Hnd; simpl.
  - split; [exact Hnd|]. split; [intros k; tauto|]. intros p; tauto.
  - destruct (IH (dict_set string_dec d k v)) as (H1 & H2 & H3);
      [apply NoDup_keys_dict_set, Hnd|].
    split; [exact H1|]. split.
    + intros k'. rewrite H2, In_keys_dict_set. tauto.
    + intros p Hp. destruct (H3 p Hp) as [Hp'|Hp']; [|tauto].
      apply In_dict_set in Hp' as [->|Hp']; tauto.
Qed.

Lemma load_fold_spec (es : list (option (string * GuardMeta))) :
  let acc := flat_map (fun o => match o with Some e => [e] | None => [] end) es in
  snd (fold_left load_step es ([], 0%nat)) = length acc /\
  NoDup (map fst (fst (fold_left load_step es ([], 0%nat)))) /\
  length (fst (fold_left load_step es ([], 0%nat))) = length (nodup string_dec (map fst acc)) /\
  (forall fp, dict_get string_dec (fst (fold_left load_step es ([], 0%nat))) fp =
              dict_get string_dec (rev acc) fp) /\
  (forall p, In p (fst (fold_left load_step es ([], 0%nat))) -> In p acc).
Proof.
  intros acc. rewrite load_fold. fold acc. cbn [fst snd].
  destruct (fold_set_keys acc [] ltac:(constructor)) as (H1 & H2 & H3).
  split; [reflexivity|]. split; [exact H1|]. split; [|split].
  - rewrite <- (length_map fst). apply Permutation_length, NoDup_Permutation;
      [exact H1|apply NoDup_nodup|].
    intros k. rewrite nodup_In, H2. simpl. tauto.
  - intros fp. rewrite dict_get_fold_set. destruct (dict_get string_dec (rev acc) fp); reflexivity.
  - intros p Hp. destruct (H3 p Hp) as [[]|H]; exact H.
Qed.
Lemma py_or_default_nonempty (o : option string) (d : string) :
  d <> EmptyString -> py_or_default o d <> EmptyString.
Proof.
  intros Hd. destruct o as [s|]; simpl; [|exact Hd].
  destruct (String.eqb_spec s EmptyString); [exact Hd|assumption].
Qed.

Lemma or_empty_nonempty (s d : string) :
  d <> EmptyString -> (if String.eqb s EmptyString then d else s) <> EmptyString.
Proof.
  intros Hd. destruct (String.eqb_spec s EmptyString); [exact Hd|assumption].
Qed.

Lemma header_row_entry_shape (row : csv_dict_row) (fp : string) (m : GuardMeta) :
  header_row_entry row = Some (fp, m) ->
  String.length fp = 40%nat /\ gm_nickname m <> EmptyString /\ gm_address m <> EmptyString /\
  gm_country m <> EmptyString /\
  fp = py_strip (py_or_default (dict_get string_dec row "guard_fingerprint"%string) EmptyString).
Proof.
  unfold header_row_entry.
  destruct (Nat.eqb_spec (String.length (py_strip (py_or_default
              (dict_get string_dec row "guard_fingerprint"%string) EmptyString))) 40) as [E|E];
    simpl; intros H; [|discriminate H].
  injection H; intros <- <-. cbn [gm_nickname gm_address gm_country].
  split; [exact E|]. split; [|split; [|split]]; try reflexivity;
    apply py_or_default_nonempty; intros HH; discriminate HH.
Qed.

Lemma raw_row_entry_shape (row : list string) (fp : string) (m : GuardMeta) :
  raw_row_entry row = Some (fp, m) ->
  String.length fp = 40%nat /\ gm_nickname m <> EmptyString /\ gm_address m <> EmptyString /\
  gm_country m <> EmptyString /\ (8 <= length row)%nat /\ fp = py_strip (nth 4 row EmptyString).
Proof.
  unfold raw_row_entry.
  destruct (Nat.ltb_spec (length row) 8) as [Hl|Hl]; intros H; [discriminate H|].
  cbn zeta in H.
  destruct (Nat.eqb_spec (String.length (py_strip (nth 4 row EmptyString))) 40) as [E|E];
    cbn [negb] in H; [|discriminate H].
  injection H; intros <- <-. cbn [gm_nickname gm_address gm_country].
  split; [exact E|]. split; [|split; [|split; [|split]]]; try reflexivity; try exact Hl;
    apply or_empty_nonempty; intros HH; discriminate HH.
Qed.

Lemma In_accepted {R} (entry : R -> option (string * GuardMeta)) (rows : list R) (p : string * GuardMeta) :
  In p (flat_map (fun o => match o with Some e => [e] | None => [] end) (map entry rows)) ->
  exists row, In row rows /\ entry row = Some p.
Proof.
  intros H. apply in_flat_map in H as (o & Ho & Hp).
  apply in_map_iff in Ho as (row & <- & Hrow).
  destruct (entry row) as [e|] eqn:E; [|destruct Hp].
  destruct Hp as [<-|[]]. exists row. split; [exact Hrow|exact E].
Qed.

(** X23.  Both metadata loops of [load_model] (the headered and the
    positional CSV) build [guard_meta] as a Python dict: [loaded] counts
    the accepted rows, the keys are distinct and there are as many as
    distinct fingerprints among the accepted rows (fewer than [loaded] when
    a guard occurs in several rows), and each fingerprint maps to the
    metadata of the last accepted row that has it. *)
Theorem load_meta_dictionary (hrows : list csv_dict_row) (rrows : list (list string)) :
  (let acc := flat_map (fun o => match o with Some e => [e] | None => [] end)
                       (map header_row_entry hrows) in
   snd (load_meta_header hrows) = length acc /\
   NoDup (map fst (fst (load_meta_header hrows))) /\
   length (fst (load_meta_header hrows)) = length (nodup string_dec (map fst acc)) /\
   forall fp, dict_get string_dec (fst (load_meta_header hrows)) fp = dict_get string_dec (rev acc) fp) /\
  (let acc := flat_map (fun o => match o with Some e => [e] | None => [] end)
                       (map raw_row_entry rrows) in
   snd (load_meta_raw rrows) = length acc /\
   NoDup (map fst (fst (load_meta_raw rrows))) /\
   length (fst (load_meta_raw rrows)) = length (nodup string_dec (map fst acc)) /\
   forall fp, dict_get string_dec (fst (load_meta_raw rrows)) fp = dict_get string_dec (rev acc) fp).
Proof.
  split; intros acc; unfold load_meta_header, load_meta_raw.
  - destruct (load_fold_spec (map header_row_entry hrows)) as (H1 & H2 & H3 & H4 & _).
    split; [exact H1|]. split; [exact H2|]. split; [exact H3|exact H4].
  - destruct (load_fold_spec (map raw_row_entry rrows)) as (H1 & H2 & H3 & H4 & _).
    split; [exact H1|]. split; [exact H2|]. split; [exact H3|exact H4].
Qed.

(** X24.  Every entry the metadata loops store has a 40-character key,
    the stripped fingerprint of one of the rows, and a non-empty nickname,
    address and country (the defaults [Guard_<fp[:6]>] and [Unknown] fill
    the missing or empty fields); a positional row is only used when it has
    at least 8 fields. *)
Theorem load_meta_entries (hrows : list csv_dict_row) (rrows : list (list string)) :
  (forall fp m, In (fp, m) (fst (load_meta_header hrows)) ->
     String.length fp = 40%nat /\ gm_nickname m <> EmptyString /\
     gm_address m <> EmptyString /\ gm_country m <> EmptyString /\
     exists row, In row hrows /\
       fp = py_strip (py_or_default (dict_get string_dec row "guard_fingerprint"%string) EmptyString)) /\
  (forall fp m, In (fp, m) (fst (load_meta_raw rrows)) ->
     String.length fp = 40%nat /\ gm_nickname m <> EmptyString /\
     gm_address m <> EmptyString /\ gm_country m <> EmptyString /\
     exists row, In row rrows /\ (8 <= length row)%nat /\ fp = py_strip (nth 4 row EmptyString)).
Proof.
  split; intros fp m Hin.
  - unfold load_meta_header in Hin.
    destruct (load_fold_spec (map header_row_entry hrows)) as (_ & _ & _ & _ & H5).
    apply H5, In_accepted in Hin as (row & Hrow & E).
    apply header_row_entry_shape in E as (E1 & E2 & E3 & E4 & E5).
    repeat split; try assumption. exists row. split; assumption.
  - unfold load_meta_raw in Hin.
    destruct (load_fold_spec (map raw_row_entry rrows)) as (_ & _ & _ & _ & H5).
    apply H5, In_accepted in Hin as (row & Hrow & E).
    apply raw_row_entry_shape in E as (E1 & E2 & E3 & E4 & E5 & E6).
    repeat split; try assumption. exists row. split; [assumption|split; assumption].
Qed.

Lemma load_meta_entries_witness :
  exists m, In ("0123456789ABCDEF0123456789ABCDEF01234567"%string, m)
              (fst (load_meta_raw [["r1"; "c1"; "t"; "ok"; " 0123456789ABCDEF0123456789ABCDEF01234567 "; ""; "10.0.0.1"; "DE"]%string])) /\
    gm_nickname m <> EmptyString.
Proof.
  eexists. split.
  - vm_compute. left. reflexivity.
  - destruct (load_meta_entries [] [["r1"; "c1"; "t"; "ok"; " 0123456789ABCDEF0123456789ABCDEF01234567 "; ""; "10.0.0.1"; "DE"]%string])
      as [_ H]. eapply H. vm_compute. left. reflexivity.
Defined.
